(** * The cropper demo component ([App]) as a state machine

    The demo is one React function component.  Its [useState] cells form
    a record, its refs point to elements owned by the cropping toolkit,
    and every handler is a transition on a world that also holds the
    part of the browser the handlers touch: the log of calls made on
    foreign objects, the children of [document.body], the live object
    URLs and the asynchronous operations still in flight. *)

From Stdlib Require Import ZArith NArith List String Ascii Bool Lia.
From Stdlib Require Import Floats Uint63 DecimalString DecimalN.
Import ListNotations.

#[local] Set Warnings "-inexact-float".
#[local] Open Scope string_scope.

(** ** JavaScript values used by the component *)

(** A JavaScript [number] is an IEEE 754 binary64 value. *)
Definition number : Type := float.

Module JS.

(** [Object.is] on numbers (React compares hook dependencies and
    state updates with it): bitwise identity, so [NaN] is itself and
    [+0] differs from [-0]. *)
Definition Object_is (x y : number) : bool := PrimFloat.Leibniz.eqb x y.

(** The integer nearest to [n/d] for [d > 0], the upper one on a tie. *)
Definition round_half_up (n d : Z) : Z := ((2 * n + d) / (2 * d))%Z.

(** [Math.round] (ECMA-262, 21.3.2.28): a number that is not finite or
    already integral is returned as it is; otherwise the nearest
    integral number, the one closer to +infinity on a tie, and a zero
    result keeps the sign of the argument. *)
Definition Math_round (x : number) : number :=
  match Prim2SF x with
  | S754_finite s m e =>
      if (0 <=? e)%Z then x
      else
        let n := if s then Z.neg m else Z.pos m in
        let r := round_half_up n (2 ^ (- e)) in
        if (r =? 0)%Z then (if s then neg_zero else zero)
        else if (r <? 0)%Z
             then (- of_uint63 (Uint63.of_Z (- r)))%float
             else of_uint63 (Uint63.of_Z r)
  | _ => x
  end.

(** Truthiness of a [string | undefined] value: only a non-empty
    string is truthy. *)
Definition truthy (v : option string) : bool :=
  match v with
  | Some s => negb (s =? "")
  | None => false
  end.

(** [String(n)] for a non-negative integer [n], as a template literal
    renders [Date.now()]. *)
Definition string_of_N (n : N) : string :=
  NilEmpty.string_of_uint (N.to_uint n).

End JS.

(** ** The component's state *)

Inductive ExportFormat := png | jpeg | webp.

Inductive Tab := basic | transform | advanced | actions.

Inductive Preset := profile | banner | thumbnail.

(** The literal a format is written with; it is spliced into the MIME
    type and into the download file names. *)
Definition format_name (f : ExportFormat) : string :=
  match f with
  | png => "png"
  | jpeg => "jpeg"
  | webp => "webp"
  end.

(** The rectangle kept in [cropData]. *)
Module CropData.
Record t := mk {
  x : number;
  y : number;
  width : number;
  height : number
}.
End CropData.

(** The two bundled pictures; the bundler turns each import into a URL,
    which is written here as the import specifier. *)
Definition image1 : string := "../assets/image1.png".
Definition image2 : string := "../assets/image2.png".

(** One field per [useState] cell, in the order of declaration. *)
Record State := mkState {
  imgSrc : string;
  croppedImage : option string;
  livePreview : option string;
  canvasBackground : bool;
  canvasDisabled : bool;
  scaleX : number;
  scaleY : number;
  showShade : bool;
  showGrid : bool;
  showCrosshair : bool;
  aspectRatio : option number;
  themeColor : string;
  movable : bool;
  resizable : bool;
  zoomable : bool;
  gridRows : number;
  gridColumns : number;
  exportFormat : ExportFormat;
  exportQuality : number;
  cropData : option CropData.t;
  activeTab : Tab
}.

(** The arguments of the [useState] calls. *)
Definition initial_state : State :=
  {| imgSrc := image1; croppedImage := None; livePreview := None;
     canvasBackground := true; canvasDisabled := false;
     scaleX := 1%float; scaleY := 1%float;
     showShade := false; showGrid := true; showCrosshair := true;
     aspectRatio := None; themeColor := "#3399ff";
     movable := true; resizable := true; zoomable := true;
     gridRows := 3%float; gridColumns := 3%float;
     exportFormat := png; exportQuality := 0.92%float;
     cropData := None; activeTab := basic |}.

(** The state setters returned by [useState]. *)

Definition setImgSrc (v : string) (s : State) : State :=
  {| imgSrc := v; croppedImage := croppedImage s; livePreview := livePreview s;
     canvasBackground := canvasBackground s; canvasDisabled := canvasDisabled s;
     scaleX := scaleX s; scaleY := scaleY s; showShade := showShade s;
     showGrid := showGrid s; showCrosshair := showCrosshair s;
     aspectRatio := aspectRatio s; themeColor := themeColor s;
     movable := movable s; resizable := resizable s; zoomable := zoomable s;
     gridRows := gridRows s; gridColumns := gridColumns s;
     exportFormat := exportFormat s; exportQuality := exportQuality s;
     cropData := cropData s; activeTab := activeTab s |}.

Definition setCroppedImage (v : option string) (s : State) : State :=
  {| imgSrc := imgSrc s; croppedImage := v; livePreview := livePreview s;
     canvasBackground := canvasBackground s; canvasDisabled := canvasDisabled s;
     scaleX := scaleX s; scaleY := scaleY s; showShade := showShade s;
     showGrid := showGrid s; showCrosshair := showCrosshair s;
     aspectRatio := aspectRatio s; themeColor := themeColor s;
     movable := movable s; resizable := resizable s; zoomable := zoomable s;
     gridRows := gridRows s; gridColumns := gridColumns s;
     exportFormat := exportFormat s; exportQuality := exportQuality s;
     cropData := cropData s; activeTab := activeTab s |}.

Definition setLivePreview (v : option string) (s : State) : State :=
  {| imgSrc := imgSrc s; croppedImage := croppedImage s; livePreview := v;
     canvasBackground := canvasBackground s; canvasDisabled := canvasDisabled s;
     scaleX := scaleX s; scaleY := scaleY s; showShade := showShade s;
     showGrid := showGrid s; showCrosshair := showCrosshair s;
     aspectRatio := aspectRatio s; themeColor := themeColor s;
     movable := movable s; resizable := resizable s; zoomable := zoomable s;
     gridRows := gridRows s; gridColumns := gridColumns s;
     exportFormat := exportFormat s; exportQuality := exportQuality s;
     cropData := cropData s; activeTab := activeTab s |}.

Definition setCanvasBackground (v : bool) (s : State) : State :=
  {| imgSrc := imgSrc s; croppedImage := croppedImage s;
     livePreview := livePreview s; canvasBackground := v;
     canvasDisabled := canvasDisabled s; scaleX := scaleX s; scaleY := scaleY s;
     showShade := showShade s; showGrid := showGrid s;
     showCrosshair := showCrosshair s; aspectRatio := aspectRatio s;
     themeColor := themeColor s; movable := movable s; resizable := resizable s;
     zoomable := zoomable s; gridRows := gridRows s;
     gridColumns := gridColumns s; exportFormat := exportFormat s;
     exportQuality := exportQuality s; cropData := cropData s;
     activeTab := activeTab s |}.

Definition setCanvasDisabled (v : bool) (s : State) : State :=
  {| imgSrc := imgSrc s; croppedImage := croppedImage s;
     livePreview := livePreview s; canvasBackground := canvasBackground s;
     canvasDisabled := v; scaleX := scaleX s; scaleY := scaleY s;
     showShade := showShade s; showGrid := showGrid s;
     showCrosshair := showCrosshair s; aspectRatio := aspectRatio s;
     themeColor := themeColor s; movable := movable s; resizable := resizable s;
     zoomable := zoomable s; gridRows := gridRows s;
     gridColumns := gridColumns s; exportFormat := exportFormat s;
     exportQuality := exportQuality s; cropData := cropData s;
     activeTab := activeTab s |}.

Definition setScaleX (v : number) (s : State) : State :=
  {| imgSrc := imgSrc s; croppedImage := croppedImage s;
     livePreview := livePreview s; canvasBackground := canvasBackground s;
     canvasDisabled := canvasDisabled s; scaleX := v; scaleY := scaleY s;
     showShade := showShade s; showGrid := showGrid s;
     showCrosshair := showCrosshair s; aspectRatio := aspectRatio s;
     themeColor := themeColor s; movable := movable s; resizable := resizable s;
     zoomable := zoomable s; gridRows := gridRows s;
     gridColumns := gridColumns s; exportFormat := exportFormat s;
     exportQuality := exportQuality s; cropData := cropData s;
     activeTab := activeTab s |}.

Definition setScaleY (v : number) (s : State) : State :=
  {| imgSrc := imgSrc s; croppedImage := croppedImage s;
     livePreview := livePreview s; canvasBackground := canvasBackground s;
     canvasDisabled := canvasDisabled s; scaleX := scaleX s; scaleY := v;
     showShade := showShade s; showGrid := showGrid s;
     showCrosshair := showCrosshair s; aspectRatio := aspectRatio s;
     themeColor := themeColor s; movable := movable s; resizable := resizable s;
     zoomable := zoomable s; gridRows := gridRows s;
     gridColumns := gridColumns s; exportFormat := exportFormat s;
     exportQuality := exportQuality s; cropData := cropData s;
     activeTab := activeTab s |}.

Definition setShowShade (v : bool) (s : State) : State :=
  {| imgSrc := imgSrc s; croppedImage := croppedImage s;
     livePreview := livePreview s; canvasBackground := canvasBackground s;
     canvasDisabled := canvasDisabled s; scaleX := scaleX s; scaleY := scaleY s;
     showShade := v; showGrid := showGrid s; showCrosshair := showCrosshair s;
     aspectRatio := aspectRatio s; themeColor := themeColor s;
     movable := movable s; resizable := resizable s; zoomable := zoomable s;
     gridRows := gridRows s; gridColumns := gridColumns s;
     exportFormat := exportFormat s; exportQuality := exportQuality s;
     cropData := cropData s; activeTab := activeTab s |}.

Definition setShowGrid (v : bool) (s : State) : State :=
  {| imgSrc := imgSrc s; croppedImage := croppedImage s;
     livePreview := livePreview s; canvasBackground := canvasBackground s;
     canvasDisabled := canvasDisabled s; scaleX := scaleX s; scaleY := scaleY s;
     showShade := showShade s; showGrid := v; showCrosshair := showCrosshair s;
     aspectRatio := aspectRatio s; themeColor := themeColor s;
     movable := movable s; resizable := resizable s; zoomable := zoomable s;
     gridRows := gridRows s; gridColumns := gridColumns s;
     exportFormat := exportFormat s; exportQuality := exportQuality s;
     cropData := cropData s; activeTab := activeTab s |}.

Definition setShowCrosshair (v : bool) (s : State) : State :=
  {| imgSrc := imgSrc s; croppedImage := croppedImage s;
     livePreview := livePreview s; canvasBackground := canvasBackground s;
     canvasDisabled := canvasDisabled s; scaleX := scaleX s; scaleY := scaleY s;
     showShade := showShade s; showGrid := showGrid s; showCrosshair := v;
     aspectRatio := aspectRatio s; themeColor := themeColor s;
     movable := movable s; resizable := resizable s; zoomable := zoomable s;
     gridRows := gridRows s; gridColumns := gridColumns s;
     exportFormat := exportFormat s; exportQuality := exportQuality s;
     cropData := cropData s; activeTab := activeTab s |}.

Definition setAspectRatio (v : option number) (s : State) : State :=
  {| imgSrc := imgSrc s; croppedImage := croppedImage s;
     livePreview := livePreview s; canvasBackground := canvasBackground s;
     canvasDisabled := canvasDisabled s; scaleX := scaleX s; scaleY := scaleY s;
     showShade := showShade s; showGrid := showGrid s;
     showCrosshair := showCrosshair s; aspectRatio := v;
     themeColor := themeColor s; movable := movable s; resizable := resizable s;
     zoomable := zoomable s; gridRows := gridRows s;
     gridColumns := gridColumns s; exportFormat := exportFormat s;
     exportQuality := exportQuality s; cropData := cropData s;
     activeTab := activeTab s |}.

Definition setThemeColor (v : string) (s : State) : State :=
  {| imgSrc := imgSrc s; croppedImage := croppedImage s;
     livePreview := livePreview s; canvasBackground := canvasBackground s;
     canvasDisabled := canvasDisabled s; scaleX := scaleX s; scaleY := scaleY s;
     showShade := showShade s; showGrid := showGrid s;
     showCrosshair := showCrosshair s; aspectRatio := aspectRatio s;
     themeColor := v; movable := movable s; resizable := resizable s;
     zoomable := zoomable s; gridRows := gridRows s;
     gridColumns := gridColumns s; exportFormat := exportFormat s;
     exportQuality := exportQuality s; cropData := cropData s;
     activeTab := activeTab s |}.

Definition setMovable (v : bool) (s : State) : State :=
  {| imgSrc := imgSrc s; croppedImage := croppedImage s;
     livePreview := livePreview s; canvasBackground := canvasBackground s;
     canvasDisabled := canvasDisabled s; scaleX := scaleX s; scaleY := scaleY s;
     showShade := showShade s; showGrid := showGrid s;
     showCrosshair := showCrosshair s; aspectRatio := aspectRatio s;
     themeColor := themeColor s; movable := v; resizable := resizable s;
     zoomable := zoomable s; gridRows := gridRows s;
     gridColumns := gridColumns s; exportFormat := exportFormat s;
     exportQuality := exportQuality s; cropData := cropData s;
     activeTab := activeTab s |}.

Definition setResizable (v : bool) (s : State) : State :=
  {| imgSrc := imgSrc s; croppedImage := croppedImage s;
     livePreview := livePreview s; canvasBackground := canvasBackground s;
     canvasDisabled := canvasDisabled s; scaleX := scaleX s; scaleY := scaleY s;
     showShade := showShade s; showGrid := showGrid s;
     showCrosshair := showCrosshair s; aspectRatio := aspectRatio s;
     themeColor := themeColor s; movable := movable s; resizable := v;
     zoomable := zoomable s; gridRows := gridRows s;
     gridColumns := gridColumns s; exportFormat := exportFormat s;
     exportQuality := exportQuality s; cropData := cropData s;
     activeTab := activeTab s |}.

Definition setZoomable (v : bool) (s : State) : State :=
  {| imgSrc := imgSrc s; croppedImage := croppedImage s;
     livePreview := livePreview s; canvasBackground := canvasBackground s;
     canvasDisabled := canvasDisabled s; scaleX := scaleX s; scaleY := scaleY s;
     showShade := showShade s; showGrid := showGrid s;
     showCrosshair := showCrosshair s; aspectRatio := aspectRatio s;
     themeColor := themeColor s; movable := movable s; resizable := resizable s;
     zoomable := v; gridRows := gridRows s; gridColumns := gridColumns s;
     exportFormat := exportFormat s; exportQuality := exportQuality s;
     cropData := cropData s; activeTab := activeTab s |}.

Definition setGridRows (v : number) (s : State) : State :=
  {| imgSrc := imgSrc s; croppedImage := croppedImage s;
     livePreview := livePreview s; canvasBackground := canvasBackground s;
     canvasDisabled := canvasDisabled s; scaleX := scaleX s; scaleY := scaleY s;
     showShade := showShade s; showGrid := showGrid s;
     showCrosshair := showCrosshair s; aspectRatio := aspectRatio s;
     themeColor := themeColor s; movable := movable s; resizable := resizable s;
     zoomable := zoomable s; gridRows := v; gridColumns := gridColumns s;
     exportFormat := exportFormat s; exportQuality := exportQuality s;
     cropData := cropData s; activeTab := activeTab s |}.

Definition setGridColumns (v : number) (s : State) : State :=
  {| imgSrc := imgSrc s; croppedImage := croppedImage s;
     livePreview := livePreview s; canvasBackground := canvasBackground s;
     canvasDisabled := canvasDisabled s; scaleX := scaleX s; scaleY := scaleY s;
     showShade := showShade s; showGrid := showGrid s;
     showCrosshair := showCrosshair s; aspectRatio := aspectRatio s;
     themeColor := themeColor s; movable := movable s; resizable := resizable s;
     zoomable := zoomable s; gridRows := gridRows s; gridColumns := v;
     exportFormat := exportFormat s; exportQuality := exportQuality s;
     cropData := cropData s; activeTab := activeTab s |}.

Definition setExportFormat (v : ExportFormat) (s : State) : State :=
  {| imgSrc := imgSrc s; croppedImage := croppedImage s;
     livePreview := livePreview s; canvasBackground := canvasBackground s;
     canvasDisabled := canvasDisabled s; scaleX := scaleX s; scaleY := scaleY s;
     showShade := showShade s; showGrid := showGrid s;
     showCrosshair := showCrosshair s; aspectRatio := aspectRatio s;
     themeColor := themeColor s; movable := movable s; resizable := resizable s;
     zoomable := zoomable s; gridRows := gridRows s;
     gridColumns := gridColumns s; exportFormat := v;
     exportQuality := exportQuality s; cropData := cropData s;
     activeTab := activeTab s |}.

Definition setExportQuality (v : number) (s : State) : State :=
  {| imgSrc := imgSrc s; croppedImage := croppedImage s;
     livePreview := livePreview s; canvasBackground := canvasBackground s;
     canvasDisabled := canvasDisabled s; scaleX := scaleX s; scaleY := scaleY s;
     showShade := showShade s; showGrid := showGrid s;
     showCrosshair := showCrosshair s; aspectRatio := aspectRatio s;
     themeColor := themeColor s; movable := movable s; resizable := resizable s;
     zoomable := zoomable s; gridRows := gridRows s;
     gridColumns := gridColumns s; exportFormat := exportFormat s;
     exportQuality := v; cropData := cropData s; activeTab := activeTab s |}.

Definition setCropData (v : option CropData.t) (s : State) : State :=
  {| imgSrc := imgSrc s; croppedImage := croppedImage s;
     livePreview := livePreview s; canvasBackground := canvasBackground s;
     canvasDisabled := canvasDisabled s; scaleX := scaleX s; scaleY := scaleY s;
     showShade := showShade s; showGrid := showGrid s;
     showCrosshair := showCrosshair s; aspectRatio := aspectRatio s;
     themeColor := themeColor s; movable := movable s; resizable := resizable s;
     zoomable := zoomable s; gridRows := gridRows s;
     gridColumns := gridColumns s; exportFormat := exportFormat s;
     exportQuality := exportQuality s; cropData := v; activeTab := activeTab s |}.

Definition setActiveTab (v : Tab) (s : State) : State :=
  {| imgSrc := imgSrc s; croppedImage := croppedImage s;
     livePreview := livePreview s; canvasBackground := canvasBackground s;
     canvasDisabled := canvasDisabled s; scaleX := scaleX s; scaleY := scaleY s;
     showShade := showShade s; showGrid := showGrid s;
     showCrosshair := showCrosshair s; aspectRatio := aspectRatio s;
     themeColor := themeColor s; movable := movable s; resizable := resizable s;
     zoomable := zoomable s; gridRows := gridRows s;
     gridColumns := gridColumns s; exportFormat := exportFormat s;
     exportQuality := exportQuality s; cropData := cropData s; activeTab := v |}.

(** ** The browser around the component *)

(** The properties the component reads from the selection element
    behind [selectionRef]. *)
Module Selection.
Record t := mk {
  x : number;
  y : number;
  width : number;
  height : number
}.
End Selection.

Definition Error : Type := string.

Record File := mkFile { file_name : string }.

(** [FileReader.result] has type [string | ArrayBuffer | null]. *)
Inductive FileReaderResult :=
| result_string (s : string)
| result_buffer
| result_null.

(** The canvas [$toCanvas] resolves to.  Its only use is [toDataURL],
    called with no argument or with a MIME type and a quality. *)
Record HTMLCanvasElement := mkCanvas {
  toDataURL : option (string * number) -> string
}.

Definition Blob : Type := string.
Definition NodeId : Type := N.
Definition UrlId : Type := N.

(** The attributes [downloadImage] sets on its anchor. *)
Record Anchor := mkAnchor {
  href : UrlId;
  download : string
}.

(** Calls on objects the component does not own, as they are logged in
    the order they are made. *)
Inductive Call :=
| image_scale (sx sy : number)
| image_rotate (degrees : number)        (* [$rotate(`${degrees}deg`)] *)
| image_zoom (delta : number)
| image_resetTransform
| selection_toCanvas
| canvas_toDataURL (args : option (string * number))
| fileInput_click
| reader_readAsDataURL (f : File)
| fetch (url : string)
| response_blob
| URL_createObjectURL (b : Blob) (u : UrlId)
| document_createElement_a (n : NodeId)
| body_appendChild (n : NodeId)
| link_click (n : NodeId) (a : Anchor)
| body_removeChild (n : NodeId)
| URL_revokeObjectURL (u : UrlId)
| console_error (msg : string) (e : Error).

(** The three [async] functions of the component. *)
Inductive AsyncFn := fn_updateLivePreview | fn_handleGetResult | fn_downloadImage.

(** An operation in flight, with the variables its continuation closes
    over.  The continuation of an [await] sees the [exportFormat] and
    [exportQuality] of the render that created the handler. *)
Inductive Pending :=
| await_preview_canvas                                   (* updateLivePreview *)
| await_result_canvas (fmt : ExportFormat) (q : number)  (* handleGetResult *)
| await_file_load (f : File)                             (* reader.onload *)
| await_fetch (fmt : ExportFormat)                       (* downloadImage *)
| await_blob (fmt : ExportFormat).                       (* downloadImage *)

(** What the browser answers to an operation in flight. *)
Inductive Settlement :=
| fulfilled_canvas (c : HTMLCanvasElement)
| fulfilled_response
| fulfilled_blob (b : Blob)
| load_event (target : option FileReaderResult)
| rejected_with (e : Error).

Record World := mkWorld {
  st : State;                          (* state of the last render *)
  imageRef : bool;                     (* [imageRef.current] is an element *)
  selectionRef : option Selection.t;   (* [selectionRef.current] *)
  fileInputRef : bool;                 (* [fileInputRef.current] is an element *)
  calls : list Call;
  body : list NodeId;                  (* children of [document.body] *)
  next_node : NodeId;
  objectURLs : list UrlId;             (* object URLs not yet revoked *)
  next_url : UrlId;
  clock : N;                           (* what [Date.now()] returns *)
  pending : list Pending;
  rejected : list (AsyncFn * Error)    (* promises rejected with no handler *)
}.

Definition with_st (v : State) (w : World) : World :=
  {| st := v; imageRef := imageRef w; selectionRef := selectionRef w;
     fileInputRef := fileInputRef w; calls := calls w; body := body w;
     next_node := next_node w; objectURLs := objectURLs w;
     next_url := next_url w; clock := clock w; pending := pending w;
     rejected := rejected w |}.

Definition with_imageRef (v : bool) (w : World) : World :=
  {| st := st w; imageRef := v; selectionRef := selectionRef w;
     fileInputRef := fileInputRef w; calls := calls w; body := body w;
     next_node := next_node w; objectURLs := objectURLs w;
     next_url := next_url w; clock := clock w; pending := pending w;
     rejected := rejected w |}.

Definition with_selectionRef (v : option Selection.t) (w : World) : World :=
  {| st := st w; imageRef := imageRef w; selectionRef := v;
     fileInputRef := fileInputRef w; calls := calls w; body := body w;
     next_node := next_node w; objectURLs := objectURLs w;
     next_url := next_url w; clock := clock w; pending := pending w;
     rejected := rejected w |}.

Definition with_fileInputRef (v : bool) (w : World) : World :=
  {| st := st w; imageRef := imageRef w; selectionRef := selectionRef w;
     fileInputRef := v; calls := calls w; body := body w;
     next_node := next_node w; objectURLs := objectURLs w;
     next_url := next_url w; clock := clock w; pending := pending w;
     rejected := rejected w |}.

Definition with_calls (v : list Call) (w : World) : World :=
  {| st := st w; imageRef := imageRef w; selectionRef := selectionRef w;
     fileInputRef := fileInputRef w; calls := v; body := body w;
     next_node := next_node w; objectURLs := objectURLs w;
     next_url := next_url w; clock := clock w; pending := pending w;
     rejected := rejected w |}.

Definition with_body (v : list NodeId) (w : World) : World :=
  {| st := st w; imageRef := imageRef w; selectionRef := selectionRef w;
     fileInputRef := fileInputRef w; calls := calls w; body := v;
     next_node := next_node w; objectURLs := objectURLs w;
     next_url := next_url w; clock := clock w; pending := pending w;
     rejected := rejected w |}.

Definition with_next_node (v : NodeId) (w : World) : World :=
  {| st := st w; imageRef := imageRef w; selectionRef := selectionRef w;
     fileInputRef := fileInputRef w; calls := calls w; body := body w;
     next_node := v; objectURLs := objectURLs w; next_url := next_url w;
     clock := clock w; pending := pending w; rejected := rejected w |}.

Definition with_objectURLs (v : list UrlId) (w : World) : World :=
  {| st := st w; imageRef := imageRef w; selectionRef := selectionRef w;
     fileInputRef := fileInputRef w; calls := calls w; body := body w;
     next_node := next_node w; objectURLs := v; next_url := next_url w;
     clock := clock w; pending := pending w; rejected := rejected w |}.

Definition with_next_url (v : UrlId) (w : World) : World :=
  {| st := st w; imageRef := imageRef w; selectionRef := selectionRef w;
     fileInputRef := fileInputRef w; calls := calls w; body := body w;
     next_node := next_node w; objectURLs := objectURLs w; next_url := v;
     clock := clock w; pending := pending w; rejected := rejected w |}.

Definition with_clock (v : N) (w : World) : World :=
  {| st := st w; imageRef := imageRef w; selectionRef := selectionRef w;
     fileInputRef := fileInputRef w; calls := calls w; body := body w;
     next_node := next_node w; objectURLs := objectURLs w;
     next_url := next_url w; clock := v; pending := pending w;
     rejected := rejected w |}.

Definition with_pending (v : list Pending) (w : World) : World :=
  {| st := st w; imageRef := imageRef w; selectionRef := selectionRef w;
     fileInputRef := fileInputRef w; calls := calls w; body := body w;
     next_node := next_node w; objectURLs := objectURLs w;
     next_url := next_url w; clock := clock w; pending := v;
     rejected := rejected w |}.

Definition with_rejected (v : list (AsyncFn * Error)) (w : World) : World :=
  {| st := st w; imageRef := imageRef w; selectionRef := selectionRef w;
     fileInputRef := fileInputRef w; calls := calls w; body := body w;
     next_node := next_node w; objectURLs := objectURLs w;
     next_url := next_url w; clock := clock w; pending := pending w;
     rejected := v |}.

(** ** Primitive effects *)

Definition log (c : Call) (w : World) : World :=
  with_calls (calls w ++ [c]) w.

(** An [await] (or a registered callback): the operation joins the ones
    in flight and the handler returns to the event loop. *)
Definition suspend (p : Pending) (w : World) : World :=
  with_pending (pending w ++ [p]) w.

Definition setState (f : State -> State) (w : World) : World :=
  with_st (f (st w)) w.

(** An [async] function whose body throws returns a rejected promise;
    no caller in the component attaches a handler to it. *)
Definition reject (fn : AsyncFn) (e : Error) (w : World) : World :=
  with_rejected (rejected w ++ [(fn, e)]) w.

(** The browser calls [downloadImage] makes, with the part of their
    effect that stays in the page: an object URL is live from its
    creation to its revocation, and a created element is a child of
    [document.body] from [appendChild] to [removeChild]. *)
Definition URL_create (b : Blob) (w : World) : UrlId * World :=
  let u := next_url w in
  (u, log (URL_createObjectURL b u)
        (with_next_url (N.succ u) (with_objectURLs (u :: objectURLs w) w))).

Definition URL_revoke (u : UrlId) (w : World) : World :=
  log (URL_revokeObjectURL u)
      (with_objectURLs (remove N.eq_dec u (objectURLs w)) w).

Definition createElement_a (w : World) : NodeId * World :=
  let n := next_node w in
  (n, log (document_createElement_a n) (with_next_node (N.succ n) w)).

(** [appendChild] puts the node last, moving it if it is a child already. *)
Definition appendChild (n : NodeId) (w : World) : World :=
  log (body_appendChild n) (with_body (remove N.eq_dec n (body w) ++ [n]) w).

Definition removeChild (n : NodeId) (w : World) : World :=
  log (body_removeChild n) (with_body (remove N.eq_dec n (body w)) w).

(** ** The handlers of [App] *)

Definition updateLivePreview (w : World) : World :=
  match selectionRef w with
  | Some _ => suspend await_preview_canvas (log selection_toCanvas w)
  | None => w
  end.

Definition updateLivePreview_resume (r : Settlement) (w : World)
  : option World :=
  match r with
  | fulfilled_canvas canvas =>
      Some (setState (setLivePreview (Some (toDataURL canvas None)))
              (log (canvas_toDataURL None) w))
  | rejected_with e => Some (reject fn_updateLivePreview e w)
  | _ => None
  end.

Definition onCrop (w : World) : World :=
  let w := updateLivePreview w in
  match selectionRef w with
  | Some selection =>
      setState
        (setCropData
           (Some {| CropData.x := JS.Math_round (Selection.x selection);
                    CropData.y := JS.Math_round (Selection.y selection);
                    CropData.width :=
                      JS.Math_round (Selection.width selection);
                    CropData.height :=
                      JS.Math_round (Selection.height selection) |}))
        w
  | None => w
  end.

Definition handleGetResult (w : World) : World :=
  match selectionRef w with
  | Some _ =>
      suspend
        (await_result_canvas (exportFormat (st w)) (exportQuality (st w)))
        (log selection_toCanvas w)
  | None => w
  end.

Definition handleGetResult_resume (fmt : ExportFormat) (q : number)
    (r : Settlement) (w : World) : option World :=
  match r with
  | fulfilled_canvas canvas =>
      let mimeType := "image/" ++ format_name fmt in
      let dataUrl := toDataURL canvas (Some (mimeType, q)) in
      Some (setState (setCroppedImage (Some dataUrl))
              (log (canvas_toDataURL (Some (mimeType, q))) w))
  | rejected_with e => Some (reject fn_handleGetResult e w)
  | _ => None
  end.

(** [files] is [e.target.files]: [null] or a list of files. *)
Definition handleFileUpload (files : option (list File)) (w : World)
  : World :=
  match files with
  | Some (file :: _) =>
      suspend (await_file_load file) (log (reader_readAsDataURL file) w)
  | _ => w
  end.

(** The [onload] callback; [target] is [event.target?.result].  A read
    that fails fires [error], for which no callback is registered. *)
Definition reader_onload (r : Settlement) (w : World) : option World :=
  match r with
  | load_event (Some (result_string result)) =>
      Some (setState (setImgSrc result) w)
  | load_event _ => Some w
  | rejected_with _ => Some w
  | _ => None
  end.

Definition handleRotate (degrees : number) (w : World) : World :=
  if imageRef w then log (image_rotate degrees) w else w.

Definition handleFlipHorizontal (s : State) : State :=
  let newScaleX := (scaleX s * -1)%float in
  setScaleX newScaleX s.

Definition handleFlipVertical (s : State) : State :=
  let newScaleY := (scaleY s * -1)%float in
  setScaleY newScaleY s.

Definition handleZoom (delta : number) (w : World) : World :=
  if imageRef w then log (image_zoom delta) w else w.

Definition handleResetTransformations (w : World) : World :=
  if imageRef w then log image_resetTransform w else w.

Definition applyPreset (preset : Preset) (s : State) : State :=
  match preset with
  | profile => setAspectRatio (Some 1%float) s
  | banner => setAspectRatio (Some (16 / 9)%float) s
  | thumbnail => setAspectRatio (Some (4 / 3)%float) s
  end.

Definition downloadImage (w : World) : World :=
  match livePreview (st w) with
  | Some url =>
      if JS.truthy (Some url)
      then suspend (await_fetch (exportFormat (st w))) (log (fetch url) w)
      else w
  | None => w
  end.

Definition download_catch (error : Error) (w : World) : World :=
  log (console_error "Error downloading image:" error) w.

Definition downloadImage_fetched (fmt : ExportFormat) (r : Settlement)
    (w : World) : option World :=
  match r with
  | fulfilled_response => Some (suspend (await_blob fmt) (log response_blob w))
  | rejected_with e => Some (download_catch e w)
  | _ => None
  end.

Definition download_name (now : N) (fmt : ExportFormat) : string :=
  "cropped-image-" ++ JS.string_of_N now ++ "." ++ format_name fmt.

Definition downloadImage_blobbed (fmt : ExportFormat) (r : Settlement)
    (w : World) : option World :=
  match r with
  | fulfilled_blob blob =>
      let (url, w) := URL_create blob w in
      let (link, w) := createElement_a w in
      let a := {| href := url; download := download_name (clock w) fmt |} in
      let w := appendChild link w in
      let w := log (link_click link a) w in
      let w := removeChild link w in
      Some (URL_revoke url w)
  | rejected_with e => Some (download_catch e w)
  | _ => None
  end.

(** The two scale effects, [useEffect(..., [scaleX])] and
    [useEffect(..., [scaleY])]; [s] is the state of the render they
    belong to. *)
Definition scaleX_effect (s : State) (w : World) : World :=
  if imageRef w then log (image_scale (-1)%float (scaleY s)) w else w.

Definition scaleY_effect (s : State) (w : World) : World :=
  if imageRef w then log (image_scale (scaleX s) (-1)%float) w else w.

(** The part of the rendered page claims refer to: the download link
    under the cropped result, present when [croppedImage] is truthy. *)
Definition result_link (s : State) : option (string * string) :=
  match croppedImage s with
  | Some url =>
      if JS.truthy (Some url)
      then Some (url, "cropped." ++ format_name (exportFormat s))
      else None
  | None => None
  end.

(** ** Events and the render cycle *)

(** What can happen to the mounted component: an event of the page
    reaches the handler bound to it in the JSX, an operation in flight
    settles, or the environment changes what the refs and the clock
    show.  Which controls are on screen (the active tab, the blocks
    rendered on a condition) is not tracked: every action is accepted in
    every world. *)
Inductive Action :=
| click_image1
| click_image2
| click_upload
| change_file (files : option (list File))
| change_showShade (checked : bool)
| change_showGrid (checked : bool)
| change_showCrosshair (checked : bool)
| change_aspectRatio (value : number)      (* [Number(e.target.value)] *)
| change_themeColor (value : string)
| click_preset (preset : Preset)
| click_rotate (degrees : number)
| click_flipHorizontal
| click_flipVertical
| click_zoom (delta : number)
| click_resetTransformations
| change_canvasBackground (checked : bool)
| change_canvasDisabled (checked : bool)
| change_movable (checked : bool)
| change_resizable (checked : bool)
| change_zoomable (checked : bool)
| change_gridRows (value : number)
| change_gridColumns (value : number)
| change_exportFormat (value : ExportFormat)
| change_exportQuality (value : number)
| click_tab (tab : Tab)
| selection_change                         (* [onChange={onCrop}], "Log Data" *)
| click_cropImage                          (* [handleGetResult] *)
| click_download                           (* [downloadImage] *)
| settle (k : nat) (r : Settlement)
| env_imageRef (current : bool)
| env_selectionRef (current : option Selection.t)
| env_fileInputRef (current : bool)
| env_clock (now : N).

Fixpoint drop_nth {A : Type} (k : nat) (l : list A) : list A :=
  match l, k with
  | [], _ => []
  | _ :: t, O => t
  | h :: t, S k => h :: drop_nth k t
  end.

Definition resume (p : Pending) (r : Settlement) (w : World)
  : option World :=
  match p with
  | await_preview_canvas => updateLivePreview_resume r w
  | await_result_canvas fmt q => handleGetResult_resume fmt q r w
  | await_file_load _ => reader_onload r w
  | await_fetch fmt => downloadImage_fetched fmt r w
  | await_blob fmt => downloadImage_blobbed fmt r w
  end.

(** The [k]-th operation in flight settles with [r].  A settlement of
    the wrong kind for that operation is not an event of the system. *)
Definition settle_pending (k : nat) (r : Settlement) (w : World) : World :=
  match nth_error (pending w) k with
  | Some p =>
      match resume p r (with_pending (drop_nth k (pending w)) w) with
      | Some w' => w'
      | None => w
      end
  | None => w
  end.

(** The handler run by an action, before React renders again. *)
Definition handle (a : Action) (w : World) : World :=
  match a with
  | click_image1 => setState (setImgSrc image1) w
  | click_image2 => setState (setImgSrc image2) w
  | click_upload => if fileInputRef w then log fileInput_click w else w
  | change_file files => handleFileUpload files w
  | change_showShade b => setState (setShowShade b) w
  | change_showGrid b => setState (setShowGrid b) w
  | change_showCrosshair b => setState (setShowCrosshair b) w
  | change_aspectRatio v => setState (setAspectRatio (Some v)) w
  | change_themeColor c => setState (setThemeColor c) w
  | click_preset p => setState (applyPreset p) w
  | click_rotate d => handleRotate d w
  | click_flipHorizontal => setState handleFlipHorizontal w
  | click_flipVertical => setState handleFlipVertical w
  | click_zoom d => handleZoom d w
  | click_resetTransformations => handleResetTransformations w
  | change_canvasBackground b => setState (setCanvasBackground b) w
  | change_canvasDisabled b => setState (setCanvasDisabled b) w
  | change_movable b => setState (setMovable b) w
  | change_resizable b => setState (setResizable b) w
  | change_zoomable b => setState (setZoomable b) w
  | change_gridRows v => setState (setGridRows v) w
  | change_gridColumns v => setState (setGridColumns v) w
  | change_exportFormat f => setState (setExportFormat f) w
  | change_exportQuality q => setState (setExportQuality q) w
  | click_tab t => setState (setActiveTab t) w
  | selection_change => onCrop w
  | click_cropImage => handleGetResult w
  | click_download => downloadImage w
  | settle k r => settle_pending k r w
  | env_imageRef b => with_imageRef b w
  | env_selectionRef s => with_selectionRef s w
  | env_fileInputRef b => with_fileInputRef b w
  | env_clock t => with_clock t w
  end.

(** After a render React runs, in the order of declaration, the effects
    one of whose dependencies is not [Object.is]-equal to its value in
    the previous render. *)
Definition commit (prev : State) (w : World) : World :=
  let s := st w in
  let w := if JS.Object_is (scaleX prev) (scaleX s) then w
           else scaleX_effect s w in
  if JS.Object_is (scaleY prev) (scaleY s) then w else scaleY_effect s w.

Definition step (a : Action) (w : World) : World :=
  commit (st w) (handle a w).

Definition run (l : list Action) (w : World) : World :=
  fold_left (fun w a => step a w) l w.

(** The world before the first render.  The page holds the root the
    component is rendered into; which refs are attached when the first
    effects run is left to the toolkit's adapter. *)
Definition initial_world (image : bool) (selection : option Selection.t)
    (input : bool) : World :=
  {| st := initial_state; imageRef := image; selectionRef := selection;
     fileInputRef := input; calls := []; body := [0%N]; next_node := 1%N;
     objectURLs := []; next_url := 0%N; clock := 0%N; pending := [];
     rejected := [] |}.

(** On the first render every effect runs. *)
Definition mount (w : World) : World :=
  scaleY_effect (st w) (scaleX_effect (st w) w).

Inductive reachable : World -> Prop :=
| reachable_mount image selection input :
    reachable (mount (initial_world image selection input))
| reachable_step a w : reachable w -> reachable (step a w).

(** Node and URL identifiers handed out so far are below the counters. *)
Definition fresh_ids (w : World) : Prop :=
  Forall (fun n => (n < next_node w)%N) (body w) /\
  Forall (fun u => (u < next_url w)%N) (objectURLs w).

(** ** Sample runs *)

(** A canvas and a selection to run the component on. *)
Definition sample_canvas : HTMLCanvasElement :=
  mkCanvas
    (fun args =>
       match args with
       | Some (mimeType, _) => "data:" ++ mimeType ++ ";base64,AAAA"
       | None => "data:image/png;base64,AAAA"
       end).

Definition sample_selection : Selection.t :=
  Selection.mk 10%float 20%float 300%float 200%float.

(** The component after JPEG was chosen and a first selection change
    produced a live preview. *)
Definition previewed : World :=
  run [change_exportFormat jpeg; selection_change;
       settle 0 (fulfilled_canvas sample_canvas)]
    (mount (initial_world true (Some sample_selection) true)).

(** ** Notions used in the statements *)

(** The two values a flip factor takes. *)
Definition unit_scale (v : number) : Prop := v = 1%float \/ v = (-1)%float.

Definition scales_ok (s : State) : Prop :=
  unit_scale (scaleX s) /\ unit_scale (scaleY s).

(** Every state cell other than [aspectRatio] is the same in [s] and [s']. *)
Definition same_but_aspectRatio (s s' : State) : Prop :=
  imgSrc s' = imgSrc s /\ croppedImage s' = croppedImage s /\
  livePreview s' = livePreview s /\
  canvasBackground s' = canvasBackground s /\
  canvasDisabled s' = canvasDisabled s /\
  scaleX s' = scaleX s /\ scaleY s' = scaleY s /\
  showShade s' = showShade s /\ showGrid s' = showGrid s /\
  showCrosshair s' = showCrosshair s /\ themeColor s' = themeColor s /\
  movable s' = movable s /\ resizable s' = resizable s /\
  zoomable s' = zoomable s /\ gridRows s' = gridRows s /\
  gridColumns s' = gridColumns s /\ exportFormat s' = exportFormat s /\
  exportQuality s' = exportQuality s /\ cropData s' = cropData s /\
  activeTab s' = activeTab s.

(** Nothing outside the state cells differs between [w] and [w']. *)
Definition same_surroundings (w w' : World) : Prop :=
  imageRef w' = imageRef w /\ selectionRef w' = selectionRef w /\
  fileInputRef w' = fileInputRef w /\ calls w' = calls w /\
  body w' = body w /\ next_node w' = next_node w /\
  objectURLs w' = objectURLs w /\ next_url w' = next_url w /\
  clock w' = clock w /\ pending w' = pending w /\
  rejected w' = rejected w.

(** The rectangle [onCrop] stores for a selection. *)
Definition rounded (selection : Selection.t) : CropData.t :=
  {| CropData.x := JS.Math_round (Selection.x selection);
     CropData.y := JS.Math_round (Selection.y selection);
     CropData.width := JS.Math_round (Selection.width selection);
     CropData.height := JS.Math_round (Selection.height selection) |}.

(** The part of a file name after its last dot. *)
Fixpoint extension (name : string) : option string :=
  match name with
  | EmptyString => None
  | String c rest =>
      match extension rest with
      | Some e => Some e
      | None => if Ascii.eqb c "."%char then Some rest else None
      end
  end.

(** The synchronous tail of [downloadImage], run once the blob is there. *)
Definition save_blob (fmt : ExportFormat) (blob : Blob) (w : World)
  : World :=
  match downloadImage_blobbed fmt (fulfilled_blob blob) w with
  | Some w' => w'
  | None => w
  end.

(** The calls that return a promise or register a callback. *)
Definition is_async_call (c : Call) : bool :=
  match c with
  | selection_toCanvas | reader_readAsDataURL _ | fetch _ | response_blob =>
      true
  | _ => false
  end.

Definition async_calls (w : World) : list Call :=
  filter is_async_call (calls w).

(** The asynchronous points of the component, action by action: reading
    the uploaded file, turning the selection into a canvas (for the live
    preview and for the cropped result), and fetching the preview and
    turning the response into a blob on the way to the object URL.  No
    other action starts anything. *)
Definition async_points (a : Action) (w : World) : list Pending :=
  match a with
  | change_file (Some (file :: _)) => [await_file_load file]
  | selection_change =>
      match selectionRef w with
      | Some _ => [await_preview_canvas]
      | None => []
      end
  | click_cropImage =>
      match selectionRef w with
      | Some _ =>
          [await_result_canvas (exportFormat (st w)) (exportQuality (st w))]
      | None => []
      end
  | click_download =>
      if JS.truthy (livePreview (st w))
      then [await_fetch (exportFormat (st w))]
      else []
  | settle k fulfilled_response =>
      match nth_error (pending w) k with
      | Some (await_fetch fmt) => [await_blob fmt]
      | _ => []
      end
  | _ => []
  end.

(** Which answers an operation in flight can get. *)
Definition accepts (p : Pending) (r : Settlement) : bool :=
  match p, r with
  | _, rejected_with _ => true
  | (await_preview_canvas | await_result_canvas _ _), fulfilled_canvas _ =>
      true
  | await_file_load _, load_event _ => true
  | await_fetch _, fulfilled_response => true
  | await_blob _, fulfilled_blob _ => true
  | _, _ => false
  end.

(** The operations still in flight once the action is handled, the ones
    it starts left aside. *)
Definition still_pending (a : Action) (w : World) : list Pending :=
  match a with
  | settle k r =>
      match nth_error (pending w) k with
      | Some p => if accepts p r then drop_nth k (pending w) else pending w
      | None => pending w
      end
  | _ => pending w
  end.

(** The two actions bound to the flip buttons. *)
Definition is_flip (a : Action) : bool :=
  match a with
  | click_flipHorizontal | click_flipVertical => true
  | _ => false
  end.

(** A [$scale] call that mirrors one axis: -1 on it, 1 or -1 on the
    other. *)
Definition mirrors_one_axis (c : Call) : Prop :=
  match c with
  | image_scale sx sy =>
      (sx = (-1)%float /\ unit_scale sy) \/
      (unit_scale sx /\ sy = (-1)%float)
  | _ => True
  end.



(** How many times a button was pressed in a sequence of actions. *)
Definition horizontal_flips (l : list Action) : nat :=
  List.length
    (filter (fun a => match a with
                      | click_flipHorizontal => true
                      | _ => false
                      end) l).

Definition vertical_flips (l : list Action) : nat :=
  List.length
    (filter (fun a => match a with
                      | click_flipVertical => true
                      | _ => false
                      end) l).

(** The exact value [n/d] of a finite binary64 number, [d] a power of
    two; NaN and the infinities have none. *)
Definition SF_fraction (f : spec_float) : option (Z * Z) :=
  match f with
  | S754_zero _ => Some (0, 1)%Z
  | S754_finite s m e =>
      let n := if s then Z.neg m else Z.pos m in
      if (0 <=? e)%Z then Some (n * 2 ^ e, 1)%Z else Some (n, 2 ^ (- e))%Z
  | _ => None
  end.

Definition fraction (v : number) : option (Z * Z) :=
  SF_fraction (Prim2SF v).

(** The integer a number is, if it is one. *)
Definition SF_integer (f : spec_float) : option Z :=
  match SF_fraction f with
  | Some (n, d) => if (n mod d =? 0)%Z then Some (n / d)%Z else None
  | None => None
  end.

Definition integer_value (v : number) : option Z :=
  SF_integer (Prim2SF v).

(** [r] is [v] rounded to the nearest integer: for a finite [v = n/d],
    [r] is an integer [z] with [z - 1/2 <= v < z + 1/2] (so the larger
    neighbour when [v] lies half-way); a NaN or an infinity has no
    nearest integer and is kept. *)
Definition rounded_to_nearest (v r : number) : Prop :=
  match fraction v with
  | Some (n, d) =>
      exists z : Z,
        integer_value r = Some z /\
        (2 * z * d - d <= 2 * n < 2 * z * d + d)%Z
  | None => r = v
  end.

(** * Properties *)

#[local] Open Scope list_scope.

(** ** Numbers *)

Lemma Object_is_refl (v : number) : JS.Object_is v v = true.
Proof. unfold JS.Object_is. now apply Leibniz.eqb_spec. Qed.

(** Multiplying by -1 is exact: it flips the sign bit and nothing else,
    for every binary64 value. *)
Lemma SF64mul_minus_one (v : spec_float) :
  valid_binary v = true ->
  SF64mul v (S754_finite true 4503599627370496 (-52)) = SFopp v.
Proof.
  destruct v as [s|s| |s m e]; intro V;
    try (simpl; rewrite ?xorb_true_r; reflexivity).
  unfold SF64mul, SFmul. cbn [valid_binary] in V. unfold bounded in V.
  apply andb_prop in V. destruct V as [C B].
  unfold canonical_mantissa in C. apply Z.eqb_eq in C.
  apply Z.leb_le in B.
  rewrite Pos.mul_comm, xorb_true_r.
  unfold binary_round_aux, shr_fexp.
  cbn [Pos.mul]. cbn [Zdigits2 digits2_pos].
  match goal with
  | |- context [fexp _ _ ?a] =>
      replace a with (Z.pos (digits2_pos m) + e)%Z by lia
  end.
  rewrite C.
  replace (e - (e + -52))%Z with 52%Z by lia.
  cbn [shr shr_record_of_loc].
  cbv [iter_pos shr_1 orb].
  cbn [shr_m loc_of_shr_record round_nearest_even Zdigits2
         shr_record_of_loc].
  replace (e + -52 + 52)%Z with e by lia.
  rewrite C, Z.sub_diag. cbn [shr shr_m].
  apply Z.leb_le in B. rewrite B. reflexivity.
Qed.

Lemma mul_minus_one (v : number) : (v * -1)%float = (- v)%float.
Proof.
  apply Prim2SF_inj.
  change (Prim2SF (v * -1)%float = Prim2SF (- v)%float).
  rewrite FloatAxioms.mul_spec, FloatAxioms.opp_spec.
  change (Prim2SF (-1)%float)
    with (S754_finite true 4503599627370496 (-52)).
  apply SF64mul_minus_one, Prim2SF_valid.
Qed.

Lemma opp_involutive (v : number) : (- - v)%float = v.
Proof.
  apply Prim2SF_inj. rewrite !FloatAxioms.opp_spec.
  destruct (Prim2SF v); simpl; rewrite ?negb_involutive; reflexivity.
Qed.

Lemma flip_flip (v : number) : (v * -1 * -1)%float = v.
Proof. rewrite !mul_minus_one. apply opp_involutive. Qed.

Lemma minus_one_is_not_one : (-1)%float <> 1%float.
Proof.
  intro H. apply (f_equal (fun v => JS.Object_is v 1%float)) in H.
  vm_compute in H. discriminate H.
Qed.

(** [round_half_up n d] is within one half of [n/d], and is the upper
    neighbour when [n/d] lies half-way between two integers. *)
Lemma round_half_up_nearest (n d : Z) :
  (0 < d)%Z ->
  let r := JS.round_half_up n d in
  (2 * r * d - d <= 2 * n < 2 * r * d + d)%Z.
Proof.
  intros Hd r. subst r. unfold JS.round_half_up.
  pose proof (Z.div_mod (2 * n + d) (2 * d) ltac:(lia)) as E.
  pose proof (Z.mod_pos_bound (2 * n + d) (2 * d) ltac:(lia)) as B.
  nia.
Qed.

Example Math_round_half : JS.Math_round 2.5%float = 3%float.
Proof. reflexivity. Qed.

Example Math_round_negative_half : JS.Math_round (-2.5)%float = (-2)%float.
Proof. reflexivity. Qed.

Example Math_round_below_half :
  JS.Math_round 0.49999999999999994%float = 0%float.
Proof. reflexivity. Qed.

Example Math_round_keeps_sign_of_zero :
  JS.Math_round (-0.25)%float = (-0)%float.
Proof. reflexivity. Qed.

Example Math_round_integral : JS.Math_round 640%float = 640%float.
Proof. reflexivity. Qed.

Example Math_round_nan : JS.Math_round nan = nan.
Proof. reflexivity. Qed.

(** *** [Math.round] gives the nearest integer *)

Section RoundingFacts.

#[local] Open Scope Z_scope.

Lemma digits2_pos_bounds (p : positive) :
  2 ^ (Z.pos (digits2_pos p) - 1) <= Z.pos p < 2 ^ Z.pos (digits2_pos p).
Proof.
  induction p as [p IH|p IH|]; [| |simpl; lia];
    [change (digits2_pos p~1) with (Pos.succ (digits2_pos p));
     rewrite (Pos2Z.inj_xI p)
    |change (digits2_pos p~0) with (Pos.succ (digits2_pos p));
     rewrite (Pos2Z.inj_xO p)];
    rewrite Pos2Z.inj_succ;
    replace (Z.succ (Z.pos (digits2_pos p)) - 1)
      with (Z.succ (Z.pos (digits2_pos p) - 1)) by lia;
    rewrite !Z.pow_succ_r by lia; lia.
Qed.

Lemma digits2_pos_shift (p k : positive) :
  digits2_pos (Pos.iter xO p k) = (digits2_pos p + k)%positive.
Proof.
  induction k as [|k IH] using Pos.peano_ind.
  - simpl. lia.
  - rewrite Pos.iter_succ. cbn [digits2_pos]. rewrite IH. lia.
Qed.

Lemma Zpos_shift (p k : positive) :
  Z.pos (Pos.iter xO p k) = Z.pos p * 2 ^ Z.pos k.
Proof.
  induction k as [|k IH] using Pos.peano_ind.
  - simpl. lia.
  - rewrite Pos.iter_succ, (Pos2Z.inj_xO (Pos.iter xO p k)), IH,
      Pos2Z.inj_succ, Z.pow_succ_r by lia.
    lia.
Qed.

(** A mantissa that already sits at its canonical exponent is not
    touched by the rounding. *)
Lemma binary_round_aux_canonical (s : bool) (m : positive) (e : Z) :
  fexp prec emax (Z.pos (digits2_pos m) + e) = e ->
  e <= emax - prec ->
  binary_round_aux prec emax s (Z.pos m) e loc_Exact = S754_finite s m e.
Proof.
  intros C B. unfold binary_round_aux, shr_fexp.
  cbn [Zdigits2]. rewrite C, Z.sub_diag.
  cbn [shr shr_record_of_loc shr_m loc_of_shr_record round_nearest_even
         Zdigits2].
  rewrite C, Z.sub_diag. cbn [shr shr_m].
  apply Z.leb_le in B. now rewrite B.
Qed.

(** An integer of at most 53 bits is a binary64 number. *)
Lemma binary_normalize_small (p : positive) :
  Z.pos (digits2_pos p) <= 53 ->
  exists m e,
    binary_normalize prec emax (Z.pos p) 0 false = S754_finite false m e /\
    e <= 0 /\ Z.pos m = Z.pos p * 2 ^ (- e).
Proof.
  intro D. unfold binary_normalize, binary_round.
  assert (F : fexp prec emax (Z.pos (digits2_pos p) + 0)
              = Z.pos (digits2_pos p) - 53).
  { unfold fexp, SpecFloat.emin, prec, emax. lia. }
  rewrite F. unfold shl_align.
  destruct (Z.pos (digits2_pos p) - 53 - 0) as [|k|k] eqn:K; try lia.
  - exists p, 0. split; [|split; [lia|simpl; lia]].
    apply binary_round_aux_canonical.
    + unfold fexp, SpecFloat.emin, prec, emax. lia.
    + unfold prec, emax. lia.
  - exists (Pos.iter xO p k), (Z.pos (digits2_pos p) - 53).
    split; [|split; [lia|]].
    + apply binary_round_aux_canonical.
      * rewrite digits2_pos_shift.
        unfold fexp, SpecFloat.emin, prec, emax. lia.
      * unfold prec, emax. lia.
    + rewrite Zpos_shift. f_equal. f_equal. lia.
Qed.

Lemma SF_integer_scaled (s : bool) (m : positive) (e z : Z) :
  e <= 0 -> Z.pos m = z * 2 ^ (- e) ->
  SF_integer (S754_finite s m e) = Some (if s then - z else z).
Proof.
  intros He Hm. unfold SF_integer, SF_fraction.
  destruct (0 <=? e) eqn:E.
  - apply Z.leb_le in E. assert (e = 0) by lia. subst e. simpl in Hm.
    rewrite Z.mod_1_r, Z.div_1_r. simpl Z.eqb. cbn iota.
    destruct s; f_equal; simpl Z.pow; lia.
  - assert (P : 0 < 2 ^ (- e)) by (apply Z.pow_pos_nonneg; lia).
    destruct s.
    + replace (Z.neg m) with ((- z) * 2 ^ (- e)) by lia.
      rewrite Z.mod_mul, Z.div_mul by lia. reflexivity.
    + rewrite Hm, Z.mod_mul, Z.div_mul by lia. reflexivity.
Qed.

(** The numbers [Math.round] builds from an integer are that integer. *)
Lemma integer_value_of_uint63 (z : Z) :
  0 < z < 2 ^ 53 ->
  integer_value (of_uint63 (Uint63.of_Z z)) = Some z /\
  integer_value (- of_uint63 (Uint63.of_Z z))%float = Some (- z).
Proof.
  intros [Hp Hb]. destruct z as [|p|p]; try lia.
  assert (D : Z.pos (digits2_pos p) <= 53).
  { pose proof (digits2_pos_bounds p) as [L _].
    destruct (Z_le_gt_dec (Z.pos (digits2_pos p)) 53) as [|G];
      [assumption|].
    assert (2 ^ 53 <= 2 ^ (Z.pos (digits2_pos p) - 1))
      by (apply Z.pow_le_mono_r; lia).
    lia. }
  destruct (binary_normalize_small p D) as (m & e & N & He & Hm).
  assert (S : Prim2SF (of_uint63 (Uint63.of_Z (Z.pos p)))
              = S754_finite false m e).
  { rewrite of_uint63_spec, Uint63.of_Z_spec, Z.mod_small; [exact N|].
    change wB with (2 ^ 63). split; [lia|].
    assert (2 ^ 53 < 2 ^ 63) by (apply Z.pow_lt_mono_r; lia). lia. }
  unfold integer_value. rewrite FloatAxioms.opp_spec, S. cbn [SFopp negb].
  split.
  - apply (SF_integer_scaled false m e (Z.pos p) He Hm).
  - apply (SF_integer_scaled true m e (Z.pos p) He Hm).
Qed.

Lemma valid_mantissa_bound (s : bool) (m : positive) (e : Z) :
  valid_binary (S754_finite s m e) = true -> Z.pos m < 2 ^ 53.
Proof.
  cbn [valid_binary]. unfold bounded, canonical_mantissa. intro V.
  apply andb_prop in V. destruct V as [C _]. apply Z.eqb_eq in C.
  pose proof (digits2_pos_bounds m) as [_ U].
  assert (Z.pos (digits2_pos m) <= 53).
  { unfold fexp, SpecFloat.emin, prec, emax in C. lia. }
  assert (2 ^ Z.pos (digits2_pos m) <= 2 ^ 53)
    by (apply Z.pow_le_mono_r; lia).
  lia.
Qed.

(** [Math.round] of a finite number is the nearest integer, the larger
    one on a tie; NaN and the infinities come back as they are. *)
Lemma Math_round_nearest (v : number) :
  rounded_to_nearest v (JS.Math_round v).
Proof.
  unfold rounded_to_nearest, fraction, JS.Math_round, integer_value.
  pose proof (Prim2SF_valid v) as V.
  destruct (Prim2SF v) as [s|s| |s m e] eqn:E; cbn [SF_fraction].
  - exists 0. rewrite E. split; [reflexivity|lia].
  - reflexivity.
  - reflexivity.
  - destruct (0 <=? e) eqn:Le.
    + rewrite E. exists ((if s then Z.neg m else Z.pos m) * 2 ^ e).
      split; [|lia].
      unfold SF_integer, SF_fraction. rewrite Le.
      now rewrite Z.mod_1_r, Z.div_1_r.
    + apply Z.leb_gt in Le.
      set (n := if s then Z.neg m else Z.pos m).
      set (d := 2 ^ (- e)).
      assert (Hd : 2 <= d).
      { unfold d. replace (- e) with (Z.succ (- e - 1)) by lia.
        rewrite Z.pow_succ_r by lia.
        assert (0 < 2 ^ (- e - 1)) by (apply Z.pow_pos_nonneg; lia).
        lia. }
      pose proof (round_half_up_nearest n d ltac:(lia)) as R.
      cbv zeta in R.
      pose proof (valid_mantissa_bound s m e V) as M.
      assert (Hn : - 2 ^ 53 < n < 2 ^ 53) by (unfold n; destruct s; lia).
      set (r := JS.round_half_up n d) in *.
      exists r. split; [|exact R].
      assert (Hr : - 2 ^ 53 < r < 2 ^ 53) by nia.
      destruct (r =? 0) eqn:Z0.
      * apply Z.eqb_eq in Z0. rewrite Z0. destruct s; reflexivity.
      * apply Z.eqb_neq in Z0. destruct (r <? 0) eqn:Neg.
        -- apply Z.ltb_lt in Neg.
           destruct (integer_value_of_uint63 (- r) ltac:(lia)) as [_ H].
           unfold integer_value in H. rewrite H. f_equal. lia.
        -- apply Z.ltb_ge in Neg.
           destruct (integer_value_of_uint63 r ltac:(lia)) as [H _].
           exact H.
Qed.

End RoundingFacts.

(** ** The render cycle *)

Lemma commit_same_scale (prev : State) (w : World) :
  scaleX (st w) = scaleX prev ->
  scaleY (st w) = scaleY prev ->
  commit prev w = w.
Proof.
  intros HX HY. unfold commit. rewrite HX, HY.
  now rewrite !Object_is_refl.
Qed.

Lemma nth_error_last {A : Type} (l : list A) (a : A) :
  nth_error (l ++ [a]) (List.length l) = Some a.
Proof. induction l as [|h t IH]; simpl; auto. Qed.

Lemma drop_nth_last {A : Type} (l : list A) (a : A) :
  drop_nth (List.length l) (l ++ [a]) = l.
Proof. induction l as [|h t IH]; simpl; [reflexivity | now rewrite IH]. Qed.

(** ** The flip state *)

Lemma flip_unit_scale (v : number) :
  unit_scale v -> unit_scale (v * -1)%float.
Proof. intros [-> | ->]; [right | left]; reflexivity. Qed.

Lemma flip_changes_unit_scale (v : number) :
  unit_scale v -> JS.Object_is v (v * -1)%float = false.
Proof. intros [-> | ->]; reflexivity. Qed.

(** Effects never write the state cells. *)
Lemma st_commit (prev : State) (w : World) : st (commit prev w) = st w.
Proof.
  unfold commit, scaleX_effect, scaleY_effect.
  repeat match goal with
         | |- context [if ?b then _ else _] => destruct b
         end; reflexivity.
Qed.

Ltac break_match :=
  repeat match goal with
         | |- context [match ?v with _ => _ end] => destruct v eqn:?
         end.

Lemma resume_scales (p : Pending) (r : Settlement) (w w' : World) :
  resume p r w = Some w' ->
  scaleX (st w') = scaleX (st w) /\ scaleY (st w') = scaleY (st w).
Proof.
  destruct p, r; simpl; try discriminate;
    try (intros [= <-]; split; reflexivity).
  destruct target as [[s| |]|]; intros [= <-]; split; reflexivity.
Qed.

Lemma handle_scales_ok (a : Action) (w : World) :
  scales_ok (st w) -> scales_ok (st (handle a w)).
Proof.
  intros [HX HY].
  destruct a; simpl;
    try (split; assumption);
    try (unfold handleRotate, handleZoom, handleResetTransformations,
           handleFileUpload, handleGetResult, downloadImage, onCrop,
           updateLivePreview;
         break_match; split; assumption).
  - destruct preset; split; assumption.
  - split; [apply flip_unit_scale|]; assumption.
  - split; [|apply flip_unit_scale]; assumption.
  - unfold settle_pending.
    destruct (nth_error (pending w) k) as [p|]; [|split; assumption].
    destruct (resume p r _) as [w'|] eqn:E; [|split; assumption].
    apply resume_scales in E. destruct E as [EX EY].
    unfold scales_ok. rewrite EX, EY. split; assumption.
Qed.

Lemma step_scales_ok (a : Action) (w : World) :
  scales_ok (st w) -> scales_ok (st (step a w)).
Proof.
  intro H. unfold step. rewrite st_commit. now apply handle_scales_ok.
Qed.

Lemma st_mount (w : World) : st (mount w) = st w.
Proof.
  unfold mount, scaleX_effect, scaleY_effect.
  destruct (imageRef w) eqn:E; simpl; rewrite ?E; reflexivity.
Qed.

Lemma reachable_scales_ok (w : World) : reachable w -> scales_ok (st w).
Proof.
  induction 1 as [image selection input | a w _ IH].
  - rewrite st_mount. split; left; reflexivity.
  - now apply step_scales_ok.
Qed.

Lemma reachable_run (l : list Action) (w : World) :
  reachable w -> reachable (run l w).
Proof.
  revert w. induction l as [|a l IH]; intros w H; simpl; [assumption|].
  apply IH. now constructor.
Qed.

(** ** Presets *)

(** C1. For each preset name, [applyPreset] sets the aspect-ratio cell to
    the expected value -- 1 for 'profile', 16/9 for 'banner', 4/3 for
    'thumbnail' -- and changes nothing else: every other state cell keeps
    its value, and the click that runs it makes no call, starts no
    operation and triggers no effect. *)
Theorem applyPreset_sets_expected_ratio (preset : Preset) (w : World) :
  let w' := step (click_preset preset) w in
  aspectRatio (applyPreset preset (st w)) =
    Some match preset with
         | profile => 1%float
         | banner => (16 / 9)%float
         | thumbnail => (4 / 3)%float
         end /\
  st w' = applyPreset preset (st w) /\
  same_but_aspectRatio (st w) (st w') /\
  same_surroundings w w'.
Proof.
  assert (E : step (click_preset preset) w
              = setState (applyPreset preset) w).
  { unfold step. apply commit_same_scale; destruct preset; reflexivity. }
  cbv zeta. rewrite E. clear E.
  destruct preset; (split; [reflexivity|]); (split; [reflexivity|]);
    split; unfold same_but_aspectRatio, same_surroundings; simpl;
    repeat split.
Qed.

Example preset_ratio_values :
  aspectRatio (applyPreset banner initial_state)
    = Some 1.7777777777777777%float /\
  aspectRatio (applyPreset thumbnail initial_state)
    = Some 1.3333333333333333%float.
Proof. split; reflexivity. Qed.

(** ** Flips and the scale effects *)

Lemma step_flipHorizontal (w : World) :
  unit_scale (scaleX (st w)) ->
  step click_flipHorizontal w =
    scaleX_effect (handleFlipHorizontal (st w))
      (setState handleFlipHorizontal w).
Proof.
  intro H. unfold step, commit. simpl.
  rewrite (flip_changes_unit_scale _ H), Object_is_refl. reflexivity.
Qed.

Lemma step_flipVertical (w : World) :
  unit_scale (scaleY (st w)) ->
  step click_flipVertical w =
    scaleY_effect (handleFlipVertical (st w))
      (setState handleFlipVertical w).
Proof.
  intro H. unfold step, commit. simpl.
  rewrite (flip_changes_unit_scale _ H), Object_is_refl. reflexivity.
Qed.

(** C2, as stated, fails.  Mount the component with its image element,
    flip horizontally once and then once more: the second flip brings
    [scaleX] back to 1, and the call it makes is [$scale(-1, 1)], not
    [$scale(1, 1)] with the updated [scaleX]. *)
Lemma second_flip_scales_by_minus_one :
  let w1 := step click_flipHorizontal (mount (initial_world true None true)) in
  let w2 := step click_flipHorizontal w1 in
  scaleX (st w2) = 1%float /\ scaleY (st w2) = 1%float /\
  calls w2 = calls w1 ++ [image_scale (-1)%float 1%float] /\
  calls w2 <> calls w1 ++ [image_scale (scaleX (st w2)) (scaleY (st w2))].
Proof.
  cbv zeta. repeat split; try reflexivity.
  intro H. apply app_inv_head in H.
  apply (f_equal (fun l => match l with
                           | [image_scale sx _] => sx
                           | _ => 0%float
                           end)) in H.
  vm_compute in H. symmetry in H. now apply minus_one_is_not_one.
Qed.

(** C2, amended.  In every reachable world a horizontal flip negates
    [scaleX], leaves [scaleY] alone and then, when the image element is
    mounted, calls [$scale] once with the constant -1 and the current
    [scaleY]; a vertical flip negates [scaleY], leaves [scaleX] alone and
    calls [$scale] with the current [scaleX] and the constant -1.  With no
    image element no call is made. *)
Theorem flip_negates_and_scales_by_minus_one (w : World) :
  reachable w ->
  let wh := step click_flipHorizontal w in
  let wv := step click_flipVertical w in
  (scaleX (st wh) = (- scaleX (st w))%float /\
   scaleY (st wh) = scaleY (st w) /\
   calls wh = calls w ++
     if imageRef w then [image_scale (-1)%float (scaleY (st wh))] else []) /\
  (scaleY (st wv) = (- scaleY (st w))%float /\
   scaleX (st wv) = scaleX (st w) /\
   calls wv = calls w ++
     if imageRef w then [image_scale (scaleX (st wv)) (-1)%float] else []).
Proof.
  intro R. destruct (reachable_scales_ok w R) as [HX HY]. cbv zeta.
  rewrite (step_flipHorizontal w HX), (step_flipVertical w HY).
  unfold scaleX_effect, scaleY_effect. simpl.
  rewrite <- !mul_minus_one.
  destruct (imageRef w); simpl; rewrite ?app_nil_r; repeat split.
Qed.

Lemma flip_negates_and_scales_by_minus_one_witness :
  reachable (mount (initial_world true None true)) /\
  calls (step click_flipVertical (mount (initial_world true None true))) =
    calls (mount (initial_world true None true)) ++
      [image_scale 1%float (-1)%float].
Proof.
  split; [constructor|].
  apply (flip_negates_and_scales_by_minus_one
           (mount (initial_world true None true))).
  constructor.
Defined.

(** ** Steps that run no effect *)

Lemma step_handle (a : Action) (w : World) :
  scaleX (st (handle a w)) = scaleX (st w) ->
  scaleY (st (handle a w)) = scaleY (st w) ->
  step a w = handle a w.
Proof. intros HX HY. unfold step. now apply commit_same_scale. Qed.

Lemma step_settle (k : nat) (r : Settlement) (p : Pending) (w w' : World) :
  nth_error (pending w) k = Some p ->
  resume p r (with_pending (drop_nth k (pending w)) w) = Some w' ->
  step (settle k r) w = w'.
Proof.
  intros Hk Hr.
  assert (E : handle (settle k r) w = w').
  { simpl. unfold settle_pending. now rewrite Hk, Hr. }
  apply resume_scales in Hr. destruct Hr as [HX HY].
  rewrite <- E in HX, HY |- *. now apply step_handle.
Qed.

Lemma step_settle_last (r : Settlement) (p : Pending) (w w' : World) :
  resume p r w = Some w' ->
  step (settle (List.length (pending w)) r) (suspend p w) = w'.
Proof.
  intro Hr. apply step_settle with (p := p).
  - simpl. apply nth_error_last.
  - simpl. rewrite drop_nth_last.
    replace (with_pending (pending w) (suspend p w)) with w; [assumption|].
    destruct w; reflexivity.
Qed.

Lemma onCrop_cases (w : World) :
  onCrop w =
    match selectionRef w with
    | Some selection =>
        setState (setCropData (Some (rounded selection)))
          (suspend await_preview_canvas (log selection_toCanvas w))
    | None => w
    end.
Proof.
  unfold onCrop, updateLivePreview.
  destruct (selectionRef w) as [selection|] eqn:E; simpl; rewrite E;
    reflexivity.
Qed.

Lemma step_selection_change (w : World) :
  step selection_change w = onCrop w.
Proof.
  apply step_handle; simpl; rewrite onCrop_cases;
    destruct (selectionRef w); reflexivity.
Qed.

Lemma step_cropImage (w : World) :
  step click_cropImage w = handleGetResult w.
Proof.
  apply step_handle; simpl; unfold handleGetResult;
    destruct (selectionRef w); reflexivity.
Qed.

Lemma step_download (w : World) :
  step click_download w = downloadImage w.
Proof.
  apply step_handle; simpl; unfold downloadImage;
    break_match; reflexivity.
Qed.

Lemma step_change_file (files : option (list File)) (w : World) :
  step (change_file files) w = handleFileUpload files w.
Proof.
  apply step_handle; simpl; unfold handleFileUpload;
    break_match; reflexivity.
Qed.

(** ** Failures of asynchronous operations *)

(** [downloadImage] catches: whatever the fetch or the blob conversion
    answers, its promise is never rejected, and a rejection is logged
    with [console.error]. *)
Lemma downloadImage_catches (fmt : ExportFormat) (e : Error) (w : World) :
  resume (await_fetch fmt) (rejected_with e) w =
    Some (log (console_error "Error downloading image:" e) w) /\
  resume (await_blob fmt) (rejected_with e) w =
    Some (log (console_error "Error downloading image:" e) w).
Proof. split; reflexivity. Qed.

Lemma downloadImage_never_rejects (fmt : ExportFormat) (r : Settlement)
    (w w' : World) :
  resume (await_fetch fmt) r w = Some w' \/
  resume (await_blob fmt) r w = Some w' ->
  rejected w' = rejected w.
Proof.
  intros [H | H]; destruct r; simpl in H; try discriminate;
    injection H as <-; reflexivity.
Qed.

(** C3.  The code does not do what the claim says for the two functions
    that await [$toCanvas].  With a selection element present, click
    "Crop Image" (or let the selection change) and let [$toCanvas()]
    reject with [e]: nothing is logged -- the only call made is the
    [$toCanvas()] itself -- and the promise of [handleGetResult]
    (respectively [updateLivePreview]) is rejected with [e], with no
    handler attached. *)
Theorem toCanvas_rejection_is_not_caught (e : Error) (w : World)
    (selection : Selection.t) :
  selectionRef w = Some selection ->
  let k := List.length (pending w) in
  let w1 := step (settle k (rejected_with e)) (step click_cropImage w) in
  let w2 := step (settle k (rejected_with e)) (step selection_change w) in
  (rejected w1 = rejected w ++ [(fn_handleGetResult, e)] /\
   calls w1 = calls w ++ [selection_toCanvas]) /\
  (rejected w2 = rejected w ++ [(fn_updateLivePreview, e)] /\
   calls w2 = calls w ++ [selection_toCanvas]).
Proof.
  intro Hsel. cbv zeta. split.
  - rewrite step_cropImage. unfold handleGetResult. rewrite Hsel.
    erewrite (step_settle_last (rejected_with e)
                (await_result_canvas _ _) (log selection_toCanvas w));
      [|reflexivity].
    split; reflexivity.
  - rewrite step_selection_change, onCrop_cases, Hsel.
    erewrite (step_settle (List.length (pending w)) (rejected_with e)
                await_preview_canvas); cycle 1.
    + simpl. apply nth_error_last.
    + simpl. rewrite drop_nth_last. reflexivity.
    + split; reflexivity.
Qed.

Lemma toCanvas_rejection_is_not_caught_witness :
  let w := mount (initial_world true (Some sample_selection) true) in
  selectionRef w = Some sample_selection /\
  rejected (step (settle 0 (rejected_with "tainted canvas"%string))
              (step click_cropImage w))
  = [(fn_handleGetResult, "tainted canvas"%string)].
Proof.
  cbv zeta. split; [reflexivity|].
  apply (toCanvas_rejection_is_not_caught "tainted canvas"%string
           (mount (initial_world true (Some sample_selection) true))
           sample_selection).
  reflexivity.
Defined.

(** ** The crop rectangle *)

(** What [onCrop] stores: the four fields of the selection, each passed
    through [Math.round]; with no selection element, what was stored. *)
Lemma onCrop_stores_rounded_selection (w : World) :
  cropData (st (step selection_change w)) =
    match selectionRef w with
    | Some selection =>
        Some {| CropData.x := JS.Math_round (Selection.x selection);
                CropData.y := JS.Math_round (Selection.y selection);
                CropData.width := JS.Math_round (Selection.width selection);
                CropData.height :=
                  JS.Math_round (Selection.height selection) |}
    | None => cropData (st w)
    end.
Proof.
  rewrite step_selection_change, onCrop_cases.
  destruct (selectionRef w); reflexivity.
Qed.

(** C4, as stated, fails on a field that has no nearest integer.  With
    a selection whose [x] is NaN and whose [width] is infinite, [onCrop]
    stores NaN and infinity: neither is an integer. *)
Lemma onCrop_keeps_nan_and_infinity :
  let w := mount (initial_world true
                    (Some (Selection.mk nan 20%float infinity 200%float))
                    true) in
  exists rect : CropData.t,
    cropData (st (step selection_change w)) = Some rect /\
    CropData.x rect = nan /\
    integer_value (CropData.x rect) = None /\
    CropData.width rect = infinity /\
    integer_value (CropData.width rect) = None.
Proof.
  cbv zeta. eexists. split; [reflexivity|]. repeat split.
Qed.

(** C4, amended.  When [onCrop] runs with a selection element, [cropData]
    holds a rectangle each of whose fields is the corresponding field of
    the selection rounded to the nearest integer when that field is
    finite -- an integer [z] with [z - 1/2 <= v < z + 1/2], so the larger
    one when [v] is half-way -- and the field itself when it is NaN or
    infinite.  With no selection element [cropData] keeps its value. *)
Theorem onCrop_stores_nearest_integers (w : World) :
  match selectionRef w with
  | Some selection =>
      exists rect : CropData.t,
        cropData (st (step selection_change w)) = Some rect /\
        rounded_to_nearest (Selection.x selection) (CropData.x rect) /\
        rounded_to_nearest (Selection.y selection) (CropData.y rect) /\
        rounded_to_nearest (Selection.width selection)
          (CropData.width rect) /\
        rounded_to_nearest (Selection.height selection)
          (CropData.height rect)
  | None => cropData (st (step selection_change w)) = cropData (st w)
  end.
Proof.
  rewrite onCrop_stores_rounded_selection.
  destruct (selectionRef w) as [selection|]; [|reflexivity].
  eexists. split; [reflexivity|].
  cbn [CropData.x CropData.y CropData.width CropData.height].
  repeat split; apply Math_round_nearest.
Qed.

Example nearest_integer_of_half :
  rounded_to_nearest 2.5%float 3%float /\
  ~ rounded_to_nearest 2.5%float 2%float /\
  ~ rounded_to_nearest 2.5%float 2.5%float.
Proof.
  unfold rounded_to_nearest.
  let f := eval vm_compute in (fraction 2.5%float) in
  change (fraction 2.5%float) with f.
  cbv iota beta. split; [|split].
  - exists 3%Z. split; [reflexivity | lia].
  - intros [z [Hz H]]. vm_compute in Hz. injection Hz as <-. lia.
  - intros [z [Hz _]]. vm_compute in Hz. discriminate Hz.
Qed.

Example onCrop_rounds :
  cropData (st (step selection_change
                  (mount (initial_world true
                            (Some (Selection.mk 10.5%float (-0.5)%float
                                     299.49%float 200%float)) true))))
  = Some (CropData.mk 11%float (-0)%float 299%float 200%float).
Proof. reflexivity. Qed.

(** ** Uploading a picture *)

(** When a read in flight settles, [imgSrc] becomes the result if the
    load event carries a string and keeps its value otherwise, whatever
    happened since the read was started. *)
Lemma settle_file_load (k : nat) (file : File) (r : Settlement)
    (w : World) :
  nth_error (pending w) k = Some (await_file_load file) ->
  imgSrc (st (step (settle k r) w)) =
    match r with
    | load_event (Some (result_string result)) => result
    | _ => imgSrc (st w)
    end.
Proof.
  intro Hk.
  destruct (resume (await_file_load file) r
              (with_pending (drop_nth k (pending w)) w)) as [w'|] eqn:E.
  - rewrite (step_settle k r _ w w' Hk E).
    destruct r as [c| |b|[[s| |]|]|e]; simpl in E; try discriminate;
      injection E as <-; reflexivity.
  - unfold step. rewrite st_commit. simpl. unfold settle_pending.
    rewrite Hk, E.
    destruct r as [c| |b|[[s| |]|]|e]; simpl in E; try discriminate;
      reflexivity.
Qed.

Lemma settle_out_of_range (r : Settlement) (w : World) :
  step (settle (List.length (pending w)) r) w = w.
Proof.
  assert (E : handle (settle (List.length (pending w)) r) w = w).
  { simpl. unfold settle_pending.
    replace (nth_error (pending w) (List.length (pending w)))
      with (@None Pending); [reflexivity|].
    symmetry. apply nth_error_None. lia. }
  unfold step. rewrite E. now apply commit_same_scale.
Qed.

(** C7.  The change handler of the file input never writes a state cell
    itself; it starts a read exactly when the event carries a file.  When
    that read settles, [imgSrc] becomes the result if a file was present
    and the load event carries a string; in every other case -- no file
    list, an empty one, a result that is an [ArrayBuffer] or [null], no
    target, a failed read -- [imgSrc] keeps its value. *)
Theorem handleFileUpload_updates_imgSrc (files : option (list File))
    (r : Settlement) (w : World) :
  let w1 := step (change_file files) w in
  let w2 := step (settle (List.length (pending w)) r) w1 in
  st w1 = st w /\
  pending w1 = pending w ++ match files with
                            | Some (file :: _) => [await_file_load file]
                            | _ => []
                            end /\
  imgSrc (st w2) =
    match files, r with
    | Some (_ :: _), load_event (Some (result_string result)) => result
    | _, _ => imgSrc (st w)
    end.
Proof.
  cbv zeta. rewrite step_change_file. unfold handleFileUpload.
  destruct files as [[|file fs]|].
  - rewrite settle_out_of_range, app_nil_r. repeat split.
  - split; [reflexivity|]. split; [reflexivity|].
    rewrite (settle_file_load _ file); [|apply nth_error_last].
    destruct r as [c| |b|[[s| |]|]|e]; reflexivity.
  - rewrite settle_out_of_range, app_nil_r. repeat split.
Qed.

Example upload_sets_imgSrc :
  imgSrc (st (run [change_file (Some [mkFile "cat.png"]);
                   settle 0 (load_event (Some (result_string "data:,A")))]
                (mount (initial_world true None true))))
  = "data:,A"%string.
Proof. reflexivity. Qed.

(** ** The flip factors *)

(** C8.  [scaleX] and [scaleY] start at 1, and after every sequence of
    actions -- flips in particular, but also any other event of the
    page or of the environment -- each of them is 1 or -1. *)
Theorem scale_factors_stay_unit (l : list Action) (image input : bool)
    (selection : option Selection.t) :
  let w := run l (mount (initial_world image selection input)) in
  scaleX initial_state = 1%float /\ scaleY initial_state = 1%float /\
  (scaleX (st w) = 1%float \/ scaleX (st w) = (-1)%float) /\
  (scaleY (st w) = 1%float \/ scaleY (st w) = (-1)%float).
Proof.
  cbv zeta. split; [reflexivity|]. split; [reflexivity|].
  apply reachable_scales_ok, reachable_run. constructor.
Qed.

(** Flipping twice is the identity on the whole state, whatever the
    factors are. *)
Lemma handleFlipHorizontal_involutive (s : State) :
  handleFlipHorizontal (handleFlipHorizontal s) = s.
Proof.
  unfold handleFlipHorizontal, setScaleX. simpl. rewrite flip_flip.
  destruct s; reflexivity.
Qed.

Lemma handleFlipVertical_involutive (s : State) :
  handleFlipVertical (handleFlipVertical s) = s.
Proof.
  unfold handleFlipVertical, setScaleY. simpl. rewrite flip_flip.
  destruct s; reflexivity.
Qed.

(** C9.  Two horizontal flips in a row bring [scaleX] back to the value
    it had, and two vertical flips do the same for [scaleY]; in fact
    every state cell is as it was: each flip is an involution on the
    state of the component. *)
Theorem flip_twice_restores_scale (w : World) :
  let wh := run [click_flipHorizontal; click_flipHorizontal] w in
  let wv := run [click_flipVertical; click_flipVertical] w in
  scaleX (st wh) = scaleX (st w) /\
  scaleY (st wv) = scaleY (st w) /\
  st wh = st w /\
  st wv = st w.
Proof.
  cbv zeta. unfold run. simpl fold_left.
  assert (H : st (step click_flipHorizontal (step click_flipHorizontal w))
              = st w).
  { unfold step. rewrite !st_commit. simpl. rewrite !st_commit. simpl.
    apply handleFlipHorizontal_involutive. }
  assert (V : st (step click_flipVertical (step click_flipVertical w))
              = st w).
  { unfold step. rewrite !st_commit. simpl. rewrite !st_commit. simpl.
    apply handleFlipVertical_involutive. }
  rewrite H, V. repeat split.
Qed.

(** ** Exporting *)

Lemma extension_after_dot (stem e : string) :
  extension e = None ->
  extension (stem ++ "." ++ e)%string = Some e.
Proof.
  intro He. change ("." ++ e)%string with (String "." e).
  induction stem as [|c stem IH]; simpl.
  - now rewrite He.
  - now rewrite IH.
Qed.

Lemma string_append_assoc (a b c : string) :
  ((a ++ b) ++ c = a ++ b ++ c)%string.
Proof. induction a as [|h a IH]; simpl; [reflexivity | now rewrite IH]. Qed.

Lemma format_name_has_no_dot (fmt : ExportFormat) :
  extension (format_name fmt) = None.
Proof. destruct fmt; reflexivity. Qed.

Lemma extension_download_name (now : N) (fmt : ExportFormat) :
  extension (download_name now fmt) = Some (format_name fmt).
Proof.
  unfold download_name. rewrite <- string_append_assoc.
  apply extension_after_dot, format_name_has_no_dot.
Qed.

Lemma truthy_nonempty (s : string) :
  s <> ""%string -> JS.truthy (Some s) = true.
Proof.
  intro H. unfold JS.truthy. apply negb_true_iff. now apply String.eqb_neq.
Qed.

(** A click on "Download Image" whose fetch and blob conversion are
    both fulfilled. *)
Lemma download_success (blob : Blob) (url : string) (w : World) :
  livePreview (st w) = Some url ->
  url <> ""%string ->
  let k := List.length (pending w) in
  run [click_download; settle k fulfilled_response;
       settle k (fulfilled_blob blob)] w =
    save_blob (exportFormat (st w)) blob
      (log response_blob (log (fetch url) w)).
Proof.
  intros Hurl Hne. cbv zeta. unfold run. simpl fold_left.
  rewrite step_download. unfold downloadImage.
  rewrite Hurl, (truthy_nonempty url Hne).
  rewrite (step_settle_last fulfilled_response _ (log (fetch url) w)
             (suspend (await_blob (exportFormat (st w)))
                (log response_blob (log (fetch url) w))));
    [|reflexivity].
  now apply (step_settle_last (fulfilled_blob blob) _
               (log response_blob (log (fetch url) w))).
Qed.

(** ** The document and the object URLs *)

Lemma below_not_in (n : N) (l : list N) :
  Forall (fun m => (m < n)%N) l -> ~ In n l.
Proof.
  intros H Hin. rewrite Forall_forall in H.
  apply H in Hin. lia.
Qed.

Lemma remove_appended (n : N) (l : list N) :
  ~ In n l ->
  remove N.eq_dec n (remove N.eq_dec n l ++ [n]) = l.
Proof.
  intro H. rewrite (notin_remove N.eq_dec l n H), remove_app.
  rewrite (notin_remove N.eq_dec l n H). simpl.
  destruct (N.eq_dec n n) as [_|ne]; [apply app_nil_r | now destruct ne].
Qed.

Lemma remove_consed (u : N) (l : list N) :
  ~ In u l -> remove N.eq_dec u (u :: l) = l.
Proof.
  intro H. simpl.
  destruct (N.eq_dec u u) as [_|ne]; [|now destruct ne].
  now apply notin_remove.
Qed.

(** What the tail of [downloadImage] leaves behind. *)
Lemma save_blob_effect (fmt : ExportFormat) (blob : Blob) (w : World) :
  fresh_ids w ->
  let u := next_url w in
  let n := next_node w in
  let w' := save_blob fmt blob w in
  body w' = body w /\ objectURLs w' = objectURLs w /\
  next_node w' = N.succ n /\ next_url w' = N.succ u /\
  st w' = st w /\ pending w' = pending w /\ rejected w' = rejected w /\
  calls w' =
    calls w ++
      [URL_createObjectURL blob u; document_createElement_a n;
       body_appendChild n;
       link_click n {| href := u; download := download_name (clock w) fmt |};
       body_removeChild n; URL_revokeObjectURL u].
Proof.
  intros [Hb Hu]. cbv zeta. unfold save_blob.
  cbn -[remove download_name].
  split; [apply remove_appended, below_not_in, Hb|].
  split; [apply remove_consed, below_not_in, Hu|].
  repeat split. rewrite <- !app_assoc. reflexivity.
Qed.

Lemma Forall_below_succ (n : N) (l : list N) :
  Forall (fun m => (m < n)%N) l -> Forall (fun m => (m < N.succ n)%N) l.
Proof. apply Forall_impl. intros; lia. Qed.

Lemma resume_fresh_ids (p : Pending) (r : Settlement) (w w' : World) :
  resume p r w = Some w' -> fresh_ids w -> fresh_ids w'.
Proof.
  intros E F.
  destruct p; try (destruct r; simpl in E; try discriminate;
                   try (injection E as <-; exact F);
                   destruct target as [[s| |]|]; injection E as <-; exact F).
  destruct r; simpl in E; try discriminate;
    try (injection E as <-; exact F).
  pose proof (save_blob_effect fmt b w F) as S. cbv zeta in S.
  unfold save_blob in S. change (downloadImage_blobbed fmt (fulfilled_blob b) w)
    with (resume (await_blob fmt) (fulfilled_blob b) w) in S.
  simpl resume in S. simpl in E. rewrite E in S.
  destruct S as (Sb & Su & Sn & Sv & _). destruct F as [Fb Fu].
  unfold fresh_ids. rewrite Sb, Su, Sn, Sv.
  split; now apply Forall_below_succ.
Qed.

Lemma fresh_ids_commit (prev : State) (w : World) :
  fresh_ids w -> fresh_ids (commit prev w).
Proof.
  unfold commit, scaleX_effect, scaleY_effect.
  intro F. break_match; exact F.
Qed.

Lemma handle_fresh_ids (a : Action) (w : World) :
  fresh_ids w -> fresh_ids (handle a w).
Proof.
  intro F.
  destruct a; simpl; try exact F;
    try (unfold handleRotate, handleZoom, handleResetTransformations,
           handleFileUpload, handleGetResult, downloadImage;
         break_match; exact F).
  - rewrite onCrop_cases. break_match; exact F.
  - unfold settle_pending.
    destruct (nth_error (pending w) k) as [p|]; [|exact F].
    destruct (resume p r _) as [w'|] eqn:E; [|exact F].
    now apply (resume_fresh_ids _ _ _ _ E).
Qed.

Lemma reachable_fresh_ids (w : World) : reachable w -> fresh_ids w.
Proof.
  induction 1 as [image selection input | a w _ IH].
  - unfold mount, scaleX_effect, scaleY_effect.
    destruct image; simpl; split; repeat constructor.
  - unfold step. now apply fresh_ids_commit, handle_fresh_ids.
Qed.

Lemma save_blob_calls (fmt : ExportFormat) (blob : Blob) (w : World) :
  calls (save_blob fmt blob w) =
    calls w ++
      [URL_createObjectURL blob (next_url w);
       document_createElement_a (next_node w);
       body_appendChild (next_node w);
       link_click (next_node w)
         {| href := next_url w; download := download_name (clock w) fmt |};
       body_removeChild (next_node w);
       URL_revokeObjectURL (next_url w)].
Proof.
  unfold save_blob. cbn -[remove download_name].
  rewrite <- !app_assoc. reflexivity.
Qed.

Lemma result_link_truthy (s : State) (url : string) :
  croppedImage s = Some url ->
  url <> ""%string ->
  result_link s =
    Some (url, ("cropped." ++ format_name (exportFormat s))%string).
Proof.
  intros Hc Hne. unfold result_link.
  now rewrite Hc, (truthy_nonempty url Hne).
Qed.





(** ** [downloadImage] and the page *)

(** C10.  With no live preview a click on "Download Image" changes
    nothing at all: no call is made, nothing is put in flight.  With a
    preview, when the fetch and the blob conversion are fulfilled, the
    function ends with [document.body] holding the children it held
    before -- the anchor it appended is removed again -- and with the
    object URLs that were live before: the one it created, and only
    that one, is revoked. *)
Theorem downloadImage_cleans_up (w : World) (blob : Blob) :
  fresh_ids w ->
  (livePreview (st w) = None -> step click_download w = w) /\
  (forall url : string,
     livePreview (st w) = Some url ->
     url <> ""%string ->
     let k := List.length (pending w) in
     let w' := run [click_download; settle k fulfilled_response;
                    settle k (fulfilled_blob blob)] w in
     body w' = body w /\
     objectURLs w' = objectURLs w /\
     pending w' = pending w /\
     exists download : string,
       calls w' =
         calls w ++
           [fetch url; response_blob;
            URL_createObjectURL blob (next_url w);
            document_createElement_a (next_node w);
            body_appendChild (next_node w);
            link_click (next_node w)
              {| href := next_url w; download := download |};
            body_removeChild (next_node w);
            URL_revokeObjectURL (next_url w)]).
Proof.
  intro F. split.
  - intro Hnone. rewrite step_download. unfold downloadImage.
    now rewrite Hnone.
  - intros url Hurl Hne. cbv zeta.
    rewrite (download_success blob url w Hurl Hne).
    assert (F' : fresh_ids (log response_blob (log (fetch url) w)))
      by exact F.
    pose proof (save_blob_effect (exportFormat (st w)) blob _ F') as S.
    cbv zeta in S.
    destruct S as (Sb & Su & _ & _ & _ & Sp & _ & Sc).
    rewrite Sb, Su, Sp, Sc.
    repeat (split; [reflexivity|]).
    eexists. simpl. rewrite <- !app_assoc. reflexivity.
Qed.

Lemma downloadImage_cleans_up_witness :
  fresh_ids previewed /\
  body (run [click_download; settle 0 fulfilled_response;
             settle 0 (fulfilled_blob "blob"%string)] previewed)
  = body previewed.
Proof.
  assert (F : fresh_ids previewed).
  { split; repeat constructor. }
  split; [exact F|].
  exact (proj1 (proj2 (downloadImage_cleans_up previewed "blob"%string F)
                  "data:image/png;base64,AAAA"%string
                  eq_refl ltac:(discriminate))).
Defined.

Example download_without_preview :
  step click_download (mount (initial_world true None true))
  = mount (initial_world true None true).
Proof. reflexivity. Qed.

(** ** Asynchronous points *)

Lemma pending_commit (prev : State) (w : World) :
  pending (commit prev w) = pending w.
Proof.
  unfold commit, scaleX_effect, scaleY_effect. break_match; reflexivity.
Qed.

Lemma async_calls_log (c : Call) (w : World) :
  async_calls (log c w) =
    async_calls w ++ if is_async_call c then [c] else [].
Proof.
  unfold async_calls. simpl. rewrite filter_app. simpl.
  destruct (is_async_call c); reflexivity.
Qed.

Lemma async_calls_commit (prev : State) (w : World) :
  async_calls (commit prev w) = async_calls w.
Proof.
  unfold commit, scaleX_effect, scaleY_effect.
  break_match; rewrite ?async_calls_log; simpl; rewrite ?app_nil_r;
    reflexivity.
Qed.

Lemma resume_async (p : Pending) (r : Settlement) (w : World) :
  match resume p r w with
  | Some w' =>
      accepts p r = true /\
      exists started : list Pending,
        pending w' = pending w ++ started /\
        List.length (async_calls w') =
          List.length (async_calls w) + List.length started /\
        started = match p, r with
                  | await_fetch fmt, fulfilled_response => [await_blob fmt]
                  | _, _ => []
                  end
  | None => accepts p r = false
  end.
Proof.
  destruct p, r; try reflexivity;
    try (destruct target as [[s| |]|]);
    cbn -[remove download_name];
    (split; [reflexivity|]); eexists; (split; [|split; [|reflexivity]]);
    unfold async_calls; cbn -[remove download_name];
    rewrite ?app_nil_r, ?filter_app, ?length_app; simpl; try lia;
    reflexivity.
Qed.

Lemma handle_async (a : Action) (w : World) :
  pending (handle a w) = still_pending a w ++ async_points a w /\
  List.length (async_calls (handle a w)) =
    List.length (async_calls w) + List.length (async_points a w).
Proof.
  destruct a;
    try (cbn; rewrite ?app_nil_r, ?Nat.add_0_r; split; reflexivity);
    try (cbn; unfold handleRotate, handleZoom, handleResetTransformations;
         break_match; rewrite ?async_calls_log, ?app_nil_r, ?Nat.add_0_r;
         cbn; rewrite ?app_nil_r; split; reflexivity).
  - (* change_file *)
    cbn. unfold handleFileUpload.
    destruct files as [[|file fs]|]; cbn;
      rewrite ?app_nil_r, ?Nat.add_0_r; try (split; reflexivity).
    unfold async_calls. cbn. rewrite filter_app, length_app.
    split; reflexivity.
  - (* selection_change *)
    cbn. rewrite onCrop_cases.
    destruct (selectionRef w); cbn;
      rewrite ?app_nil_r, ?Nat.add_0_r; try (split; reflexivity).
    unfold async_calls. cbn. rewrite filter_app, length_app.
    split; reflexivity.
  - (* click_cropImage *)
    cbn. unfold handleGetResult.
    destruct (selectionRef w); cbn;
      rewrite ?app_nil_r, ?Nat.add_0_r; try (split; reflexivity).
    unfold async_calls. cbn. rewrite filter_app, length_app.
    split; reflexivity.
  - (* click_download *)
    cbn -[JS.truthy]. unfold downloadImage.
    destruct (livePreview (st w)) as [url|];
      [destruct (JS.truthy (Some url))|]; cbn -[JS.truthy];
      rewrite ?app_nil_r, ?Nat.add_0_r; try (split; reflexivity).
    unfold async_calls. cbn. rewrite filter_app, length_app.
    split; reflexivity.
  - (* settle *)
    cbn [handle still_pending]. unfold settle_pending.
    destruct (nth_error (pending w) k) as [p|] eqn:Hk.
    + pose proof (resume_async p r
                    (with_pending (drop_nth k (pending w)) w)) as R.
      destruct (resume p r _) as [w'|].
      * destruct R as (-> & started & -> & -> & ->).
        cbn [pending with_pending]. unfold async_points. rewrite Hk.
        destruct p, r; split; reflexivity.
      * rewrite R. unfold async_points. rewrite Hk.
        destruct p, r; try discriminate R;
          rewrite app_nil_r, Nat.add_0_r; split; reflexivity.
    + unfold async_points. rewrite Hk.
      destruct r; rewrite app_nil_r, Nat.add_0_r; split; reflexivity.
Qed.

(** C6.  Every action leaves in flight what was in flight (less the
    operation it settles) plus the asynchronous points listed for it: a
    file read for an upload, a [$toCanvas()] for a selection change and
    for "Crop Image", a fetch for "Download Image" and the blob
    conversion that follows a fulfilled fetch.  Each of them comes with
    exactly one call that returns a promise or registers a callback, and
    no action makes such a call otherwise. *)
Theorem asynchronous_points_are_the_listed_ones (a : Action) (w : World) :
  pending (step a w) = still_pending a w ++ async_points a w /\
  List.length (async_calls (step a w)) =
    List.length (async_calls w) + List.length (async_points a w).
Proof.
  unfold step. rewrite pending_commit, async_calls_commit.
  apply handle_async.
Qed.

(** * Further properties *)

(** ** Which actions rerun an effect *)

Lemma handle_keeps_scales (a : Action) (w : World) :
  is_flip a = false ->
  scaleX (st (handle a w)) = scaleX (st w) /\
  scaleY (st (handle a w)) = scaleY (st w).
Proof.
  intro NF.
  destruct a; try discriminate NF; simpl;
    try (split; reflexivity);
    try (unfold handleRotate, handleZoom, handleResetTransformations,
           handleFileUpload, handleGetResult, downloadImage;
         break_match; split; reflexivity).
  - destruct preset; split; reflexivity.
  - rewrite onCrop_cases. break_match; split; reflexivity.
  - unfold settle_pending.
    destruct (nth_error (pending w) k) as [p|]; [|split; reflexivity].
    destruct (resume p r _) as [w'|] eqn:E; [|split; reflexivity].
    apply resume_scales in E. exact E.
Qed.

Lemma step_not_flip (a : Action) (w : World) :
  is_flip a = false -> step a w = handle a w.
Proof.
  intro NF. destruct (handle_keeps_scales a w NF) as [HX HY].
  now apply step_handle.
Qed.

Lemma nth_error_middle {A : Type} (l l' : list A) (a : A) :
  nth_error (l ++ a :: l') (List.length l) = Some a.
Proof. induction l as [|h t IH]; simpl; auto. Qed.

Lemma drop_nth_middle {A : Type} (l l' : list A) (a : A) :
  drop_nth (List.length l) (l ++ a :: l') = l ++ l'.
Proof. induction l as [|h t IH]; simpl; [reflexivity | now rewrite IH]. Qed.

(** Settling the operation that sits after [l] in the queue. *)
Lemma step_settle_at (l l' : list Pending) (p : Pending) (r : Settlement)
    (w w' : World) :
  pending w = l ++ p :: l' ->
  resume p r (with_pending (l ++ l') w) = Some w' ->
  step (settle (List.length l) r) w = w'.
Proof.
  intros Hp Hr. apply step_settle with (p := p).
  - rewrite Hp. apply nth_error_middle.
  - rewrite Hp, drop_nth_middle. exact Hr.
Qed.

(** ** The flip factors over whole runs *)

Lemma step_scales (a : Action) (w : World) :
  match a with
  | click_flipHorizontal =>
      scaleX (st (step a w)) = (- scaleX (st w))%float /\
      scaleY (st (step a w)) = scaleY (st w)
  | click_flipVertical =>
      scaleX (st (step a w)) = scaleX (st w) /\
      scaleY (st (step a w)) = (- scaleY (st w))%float
  | _ =>
      scaleX (st (step a w)) = scaleX (st w) /\
      scaleY (st (step a w)) = scaleY (st w)
  end.
Proof.
  destruct a;
    try (rewrite step_not_flip by reflexivity;
         apply handle_keeps_scales; reflexivity);
    unfold step; rewrite st_commit; simpl; rewrite mul_minus_one;
    split; reflexivity.
Qed.

(** Only the two flip buttons write the flip factors: a horizontal flip
    negates [scaleX], a vertical flip negates [scaleY], and every other
    action -- "Reset Transformations" and the loading of a new picture
    included -- leaves both as they are. *)
Theorem only_flips_write_the_factors (a : Action) (w : World) :
  match a with
  | click_flipHorizontal =>
      scaleX (st (step a w)) = (- scaleX (st w))%float /\
      scaleY (st (step a w)) = scaleY (st w)
  | click_flipVertical =>
      scaleX (st (step a w)) = scaleX (st w) /\
      scaleY (st (step a w)) = (- scaleY (st w))%float
  | _ =>
      scaleX (st (step a w)) = scaleX (st w) /\
      scaleY (st (step a w)) = scaleY (st w)
  end.
Proof. exact (step_scales a w). Qed.

(** The factors record the parity of the flips: after any sequence of
    actions [scaleX] is what it was if the horizontal flip button was
    pressed an even number of times in it and its negation otherwise,
    whatever else happened in between; likewise [scaleY] and the
    vertical flips. *)
Theorem factors_track_flip_parity (l : list Action) (w : World) :
  scaleX (st (run l w)) =
    (if Nat.even (horizontal_flips l) then scaleX (st w)
     else (- scaleX (st w))%float) /\
  scaleY (st (run l w)) =
    (if Nat.even (vertical_flips l) then scaleY (st w)
     else (- scaleY (st w))%float).
Proof.
  revert w. induction l as [|a l IH]; intro w; [split; reflexivity|].
  change (run (a :: l) w) with (run l (step a w)).
  destruct (IH (step a w)) as [IHX IHY]. rewrite IHX, IHY. clear IHX IHY.
  pose proof (step_scales a w) as S.
  destruct a; destruct S as [-> ->];
    unfold horizontal_flips, vertical_flips; simpl filter;
    try (split; reflexivity);
    cbn [List.length]; rewrite Nat.even_succ, <- Nat.negb_even;
    fold (horizontal_flips l); fold (vertical_flips l);
    (split; [|try reflexivity]); try reflexivity;
    match goal with
    | |- context [Nat.even ?n] => destruct (Nat.even n)
    end; simpl; rewrite ?opp_involutive; reflexivity.
Qed.

Example three_flips :
  scaleX (st (run [click_flipHorizontal; click_resetTransformations;
                   click_flipHorizontal; click_flipHorizontal]
                (mount (initial_world true None true))))
  = (-1)%float.
Proof. reflexivity. Qed.

(** ** What the call log can hold *)

Lemma mirror_log (c : Call) (w : World) :
  mirrors_one_axis c ->
  Forall mirrors_one_axis (calls w) ->
  Forall mirrors_one_axis (calls (log c w)).
Proof.
  intros Hc Hw. simpl. apply Forall_app. split; [assumption|].
  constructor; [assumption | constructor].
Qed.

Lemma resume_calls_mirror (p : Pending) (r : Settlement) (w w' : World) :
  resume p r w = Some w' ->
  Forall mirrors_one_axis (calls w) ->
  Forall mirrors_one_axis (calls w').
Proof.
  intros E F.
  destruct p, r; try discriminate E;
    try (destruct target as [[s| |]|]);
    cbn -[remove download_name] in E; injection E as <-;
    cbn -[remove download_name];
    repeat (apply Forall_app; split; [|repeat constructor]);
    exact F.
Qed.

Lemma handle_calls_mirror (a : Action) (w : World) :
  Forall mirrors_one_axis (calls w) ->
  Forall mirrors_one_axis (calls (handle a w)).
Proof.
  intro F.
  destruct a; simpl; try exact F;
    try (unfold handleRotate, handleZoom, handleResetTransformations,
           handleFileUpload, handleGetResult, downloadImage;
         break_match; try exact F; simpl;
         apply Forall_app; split; [exact F | repeat constructor]).
  - rewrite onCrop_cases. break_match; try exact F. simpl.
    apply Forall_app; split; [exact F | repeat constructor].
  - unfold settle_pending.
    destruct (nth_error (pending w) k) as [p|]; [|exact F].
    destruct (resume p r _) as [w'|] eqn:E; [|exact F].
    now apply (resume_calls_mirror _ _ _ _ E).
Qed.

Lemma commit_calls_mirror (prev : State) (w : World) :
  scales_ok (st w) ->
  Forall mirrors_one_axis (calls w) ->
  Forall mirrors_one_axis (calls (commit prev w)).
Proof.
  intros [HX HY] F. unfold commit, scaleX_effect, scaleY_effect.
  break_match; try exact F;
    repeat (apply mirror_log; [simpl; auto|]);
    exact F.
Qed.

Lemma reachable_calls_mirror (w : World) :
  reachable w -> Forall mirrors_one_axis (calls w).
Proof.
  induction 1 as [image selection input | a w R IH].
  - destruct image; [|constructor].
    constructor; [left; split; [|left]; reflexivity|].
    constructor; [right; split; [left|]; reflexivity|].
    constructor.
  - unfold step. apply commit_calls_mirror.
    + apply handle_scales_ok. now apply reachable_scales_ok.
    + now apply handle_calls_mirror.
Qed.

(** Every [$scale] call the component ever makes mirrors one axis: one
    argument is -1 and the other is 1 or -1.  The component never calls
    [$scale(1, 1)] and never scales by any other amount. *)
Theorem scale_calls_mirror_one_axis (l : list Action) (image input : bool)
    (selection : option Selection.t) (sx sy : number) :
  In (image_scale sx sy)
     (calls (run l (mount (initial_world image selection input)))) ->
  (sx = (-1)%float /\ (sy = 1%float \/ sy = (-1)%float)) \/
  ((sx = 1%float \/ sx = (-1)%float) /\ sy = (-1)%float).
Proof.
  intro Hin.
  assert (F : Forall mirrors_one_axis
                (calls (run l (mount (initial_world image selection input))))).
  { apply reachable_calls_mirror, reachable_run. constructor. }
  rewrite Forall_forall in F. exact (F _ Hin).
Qed.

Lemma scale_calls_mirror_one_axis_witness :
  In (image_scale (-1)%float 1%float)
     (calls (run [click_flipHorizontal]
               (mount (initial_world true None true)))) /\
  (((-1)%float = (-1)%float /\ (1%float = 1%float \/ 1%float = (-1)%float)) \/
   (((-1)%float = 1%float \/ (-1)%float = (-1)%float) /\
    1%float = (-1)%float)).
Proof.
  assert (H : In (image_scale (-1)%float 1%float)
                (calls (run [click_flipHorizontal]
                          (mount (initial_world true None true))))).
  { simpl. auto. }
  split; [exact H|].
  exact (scale_calls_mirror_one_axis [click_flipHorizontal] true true None
           (-1)%float 1%float H).
Defined.

Ltac extends_log :=
  first [ exists []; now rewrite app_nil_r
        | eexists; rewrite <- ?app_assoc; reflexivity ].

Lemma resume_extends_calls (p : Pending) (r : Settlement) (w w' : World) :
  resume p r w = Some w' -> exists d, calls w' = calls w ++ d.
Proof.
  intro E.
  destruct p, r; try discriminate E;
    try (destruct target as [[s| |]|]);
    cbn -[remove download_name] in E; injection E as <-;
    cbn -[remove download_name]; extends_log.
Qed.

Lemma handle_extends_calls (a : Action) (w : World) :
  exists d, calls (handle a w) = calls w ++ d.
Proof.
  destruct a; simpl;
    try (unfold handleRotate, handleZoom, handleResetTransformations,
           handleFileUpload, handleGetResult, downloadImage;
         break_match; simpl; extends_log).
  - rewrite onCrop_cases. break_match; simpl; extends_log.
  - unfold settle_pending.
    destruct (nth_error (pending w) k) as [p|]; [|extends_log].
    destruct (resume p r _) as [w'|] eqn:E; [|extends_log].
    apply resume_extends_calls in E. exact E.
Qed.

Lemma commit_extends_calls (prev : State) (w : World) :
  exists d, calls (commit prev w) = calls w ++ d.
Proof.
  unfold commit, scaleX_effect, scaleY_effect.
  break_match; simpl; extends_log.
Qed.

Lemma run_extends_calls (l : list Action) (w : World) :
  exists d, calls (run l w) = calls w ++ d.
Proof.
  revert w. induction l as [|a l IH]; intro w.
  - simpl. extends_log.
  - change (run (a :: l) w) with (run l (step a w)).
    destruct (IH (step a w)) as [d1 E1].
    destruct (commit_extends_calls (st w) (handle a w)) as [d2 E2].
    destruct (handle_extends_calls a w) as [d3 E3].
    exists (d3 ++ d2 ++ d1).
    rewrite E1. unfold step. rewrite E2, E3.
    now rewrite <- !app_assoc.
Qed.

(** Both scale effects run on the first render.  When the image element
    is attached by then, the first two calls the component ever makes
    are [$scale(-1, 1)] and [$scale(1, -1)], before any user action, and
    whatever happens later is logged after them. *)
Theorem mount_mirrors_both_axes_first (l : list Action) (input : bool)
    (selection : option Selection.t) :
  exists rest : list Call,
    calls (run l (mount (initial_world true selection input))) =
      image_scale (-1)%float 1%float ::
      image_scale 1%float (-1)%float :: rest.
Proof.
  destruct (run_extends_calls l
              (mount (initial_world true selection input))) as [d E].
  exists d. rewrite E. reflexivity.
Qed.

(** ** The page and the promises over whole runs *)

Lemma resume_page (p : Pending) (r : Settlement) (w w' : World) :
  resume p r w = Some w' ->
  fresh_ids w ->
  body w' = body w /\ objectURLs w' = objectURLs w.
Proof.
  intros E F.
  destruct p;
    try (destruct r; simpl in E; try discriminate;
         try (injection E as <-; split; reflexivity);
         destruct target as [[s| |]|]; injection E as <-;
         split; reflexivity).
  destruct r; simpl in E; try discriminate;
    try (injection E as <-; split; reflexivity).
  pose proof (save_blob_effect fmt b w F) as S. cbv zeta in S.
  unfold save_blob in S.
  change (downloadImage_blobbed fmt (fulfilled_blob b) w)
    with (resume (await_blob fmt) (fulfilled_blob b) w) in S.
  simpl resume in S. simpl in E. rewrite E in S.
  destruct S as (Sb & Su & _). split; assumption.
Qed.

Lemma handle_page (a : Action) (w : World) :
  fresh_ids w ->
  body (handle a w) = body w /\ objectURLs (handle a w) = objectURLs w.
Proof.
  intro F.
  destruct a; simpl; try (split; reflexivity);
    try (unfold handleRotate, handleZoom, handleResetTransformations,
           handleFileUpload, handleGetResult, downloadImage;
         break_match; split; reflexivity).
  - rewrite onCrop_cases. break_match; split; reflexivity.
  - unfold settle_pending.
    destruct (nth_error (pending w) k) as [p|]; [|split; reflexivity].
    destruct (resume p r _) as [w'|] eqn:E; [|split; reflexivity].
    now apply (resume_page _ _ _ _ E).
Qed.

Lemma page_commit (prev : State) (w : World) :
  body (commit prev w) = body w /\
  objectURLs (commit prev w) = objectURLs w.
Proof.
  unfold commit, scaleX_effect, scaleY_effect.
  break_match; split; reflexivity.
Qed.

Lemma reachable_page (w : World) :
  reachable w -> body w = [0%N] /\ objectURLs w = [].
Proof.
  induction 1 as [image selection input | a w R [IHb IHu]].
  - destruct image; split; reflexivity.
  - unfold step.
    destruct (page_commit (st w) (handle a w)) as [-> ->].
    destruct (handle_page a w (reachable_fresh_ids w R)) as [-> ->].
    split; assumption.
Qed.

(** Nothing the component does stays in the page: after every sequence
    of actions -- downloads that succeed, fail or are still in flight
    included -- [document.body] holds exactly the child it held at
    mount, and no object URL is live. *)
Theorem page_is_left_clean (l : list Action) (image input : bool)
    (selection : option Selection.t) :
  let w := run l (mount (initial_world image selection input)) in
  body w = body (initial_world image selection input) /\
  objectURLs w = [].
Proof.
  cbv zeta. apply reachable_page, reachable_run. constructor.
Qed.

Lemma resume_rejected (p : Pending) (r : Settlement) (w w' : World) :
  resume p r w = Some w' ->
  rejected w' = rejected w \/
  exists e, rejected w' = rejected w ++ [(fn_updateLivePreview, e)] \/
            rejected w' = rejected w ++ [(fn_handleGetResult, e)].
Proof.
  intro E.
  destruct p, r; try discriminate E;
    try (destruct target as [[s| |]|]);
    cbn -[remove download_name] in E; injection E as <-;
    cbn -[remove download_name];
    first [ left; reflexivity
          | right; eexists; left; reflexivity
          | right; eexists; right; reflexivity ].
Qed.

Lemma handle_rejected (a : Action) (w : World) :
  rejected (handle a w) = rejected w \/
  exists e, rejected (handle a w) = rejected w ++ [(fn_updateLivePreview, e)] \/
            rejected (handle a w) = rejected w ++ [(fn_handleGetResult, e)].
Proof.
  destruct a; simpl; try (left; reflexivity);
    try (unfold handleRotate, handleZoom, handleResetTransformations,
           handleFileUpload, handleGetResult, downloadImage;
         break_match; left; reflexivity).
  - rewrite onCrop_cases. break_match; left; reflexivity.
  - unfold settle_pending.
    destruct (nth_error (pending w) k) as [p|]; [|left; reflexivity].
    destruct (resume p r _) as [w'|] eqn:E; [|left; reflexivity].
    apply resume_rejected in E. exact E.
Qed.

Lemma rejected_commit (prev : State) (w : World) :
  rejected (commit prev w) = rejected w.
Proof.
  unfold commit, scaleX_effect, scaleY_effect. break_match; reflexivity.
Qed.

Lemma reachable_download_never_rejects (w : World) :
  reachable w ->
  forall e, ~ In (fn_downloadImage, e) (rejected w).
Proof.
  induction 1 as [image selection input | a w R IH]; intros e Hin.
  - destruct image; exact Hin.
  - unfold step in Hin. rewrite rejected_commit in Hin.
    destruct (handle_rejected a w) as [E | [e' [E | E]]];
      rewrite E in Hin; try (now apply (IH e));
      apply in_app_or in Hin; destruct Hin as [Hin | [Hin | []]];
      try (now apply (IH e)); discriminate Hin.
Qed.

(** The promise of [downloadImage] is never rejected: in no run of the
    component does an unhandled rejection come from it, whatever the
    fetch and the blob conversion answer. *)
Theorem downloadImage_promise_never_rejects (l : list Action)
    (image input : bool) (selection : option Selection.t) (e : Error) :
  ~ In (fn_downloadImage, e)
       (rejected (run l (mount (initial_world image selection input)))).
Proof.
  apply reachable_download_never_rejects, reachable_run. constructor.
Qed.

(** ** [downloadImage]: the guard and the failing paths *)

Lemma suspend_changes (p : Pending) (c : Call) (w : World) :
  suspend p (log c w) <> w.
Proof.
  intro H. apply (f_equal (fun v => List.length (pending v))) in H.
  simpl in H. rewrite length_app in H. simpl in H. lia.
Qed.

(** "Download Image" does something exactly when [livePreview] is
    truthy: with [undefined] and with the empty string alike the handler
    returns at once and the world is unchanged; with any other string it
    fetches that string. *)
Theorem downloadImage_runs_iff_preview_truthy (w : World) :
  (JS.truthy (livePreview (st w)) = false <-> step click_download w = w) /\
  (JS.truthy (livePreview (st w)) = true <->
   exists url, livePreview (st w) = Some url /\
               step click_download w =
                 suspend (await_fetch (exportFormat (st w)))
                   (log (fetch url) w)).
Proof.
  rewrite step_download. unfold downloadImage.
  destruct (livePreview (st w)) as [url|] eqn:L.
  - destruct (JS.truthy (Some url)) eqn:T; split; split;
      try discriminate; try reflexivity.
    + intro H. now apply suspend_changes in H.
    + intros _. exists url. split; reflexivity.
    + intros [u [[= <-] H]]. symmetry in H. now apply suspend_changes in H.
  - split; split; try reflexivity; try discriminate.
    intros [u [H _]]. discriminate H.
Qed.

(** When the fetch is rejected, or the fetch is fulfilled and the blob
    conversion is rejected, [downloadImage] logs the error once with
    [console.error] and stops: no object URL and no anchor is created,
    no state cell changes, nothing is left in flight and no promise is
    rejected. *)
Theorem downloadImage_failure_is_logged (w : World) (url : string)
    (e : Error) :
  livePreview (st w) = Some url ->
  url <> ""%string ->
  let k := List.length (pending w) in
  let w1 := run [click_download; settle k (rejected_with e)] w in
  let w2 := run [click_download; settle k fulfilled_response;
                 settle k (rejected_with e)] w in
  w1 = log (console_error "Error downloading image:" e)
         (log (fetch url) w) /\
  w2 = log (console_error "Error downloading image:" e)
         (log response_blob (log (fetch url) w)).
Proof.
  intros Hurl Hne. cbv zeta. unfold run. simpl fold_left.
  rewrite step_download. unfold downloadImage.
  rewrite Hurl, (truthy_nonempty url Hne). split.
  - now apply (step_settle_last _ _ (log (fetch url) w)).
  - rewrite (step_settle_last fulfilled_response _ (log (fetch url) w)
               (suspend (await_blob (exportFormat (st w)))
                  (log response_blob (log (fetch url) w))));
      [|reflexivity].
    now apply (step_settle_last (rejected_with e) _
                 (log response_blob (log (fetch url) w))).
Qed.

Lemma downloadImage_failure_is_logged_witness :
  livePreview (st previewed) = Some "data:image/png;base64,AAAA"%string /\
  calls (run [click_download; settle 0 (rejected_with "offline"%string)]
           previewed)
  = calls previewed ++
      [fetch "data:image/png;base64,AAAA";
       console_error "Error downloading image:" "offline"].
Proof.
  split; [reflexivity|].
  exact (f_equal calls
           (proj1 (downloadImage_failure_is_logged previewed
                     "data:image/png;base64,AAAA"%string "offline"%string
                     eq_refl ltac:(discriminate)))).
Defined.

(** ** The selection handlers *)

(** With no selection element behind [selectionRef], a selection change
    and "Crop Image" do nothing at all: no call, nothing in flight, no
    state cell written. *)
Theorem no_selection_no_effect (w : World) :
  selectionRef w = None ->
  step selection_change w = w /\ step click_cropImage w = w.
Proof.
  intro Hsel.
  rewrite step_selection_change, onCrop_cases, step_cropImage.
  unfold handleGetResult. rewrite Hsel. split; reflexivity.
Qed.

Lemma no_selection_no_effect_witness :
  selectionRef (mount (initial_world true None true)) = None /\
  step click_cropImage (mount (initial_world true None true))
  = mount (initial_world true None true).
Proof.
  split; [reflexivity|].
  exact (proj2 (no_selection_no_effect
                  (mount (initial_world true None true)) eq_refl)).
Defined.

(** The live preview never follows the export settings: whatever format
    and quality are selected, a selection change whose [$toCanvas()] is
    fulfilled calls [toDataURL] with no argument (the browser's default
    encoding) and stores that string.  "Download Image" then fetches
    that very string, and the anchor it clicks once the fetch and the
    blob conversion are fulfilled has a file name that ends in the
    selected format. *)
Theorem livePreview_uses_default_encoding (w : World)
    (selection : Selection.t) (canvas : HTMLCanvasElement) (blob : Blob) :
  selectionRef w = Some selection ->
  let k := List.length (pending w) in
  let w' := run [selection_change; settle k (fulfilled_canvas canvas)] w in
  let w'' := run [click_download; settle k fulfilled_response;
                  settle k (fulfilled_blob blob)] w' in
  w' = setState (setLivePreview (Some (toDataURL canvas None)))
         (log (canvas_toDataURL None)
            (setState (setCropData (Some (rounded selection)))
               (log selection_toCanvas w))) /\
  (toDataURL canvas None <> ""%string ->
   exists a : Anchor,
     calls w'' =
       calls w' ++
         [fetch (toDataURL canvas None); response_blob;
          URL_createObjectURL blob (next_url w);
          document_createElement_a (next_node w);
          body_appendChild (next_node w);
          link_click (next_node w) a;
          body_removeChild (next_node w);
          URL_revokeObjectURL (next_url w)] /\
     extension (download a) = Some (format_name (exportFormat (st w)))).
Proof.
  intro Hsel. cbv zeta.
  assert (E : run [selection_change;
                   settle (List.length (pending w))
                     (fulfilled_canvas canvas)] w
              = setState (setLivePreview (Some (toDataURL canvas None)))
                  (log (canvas_toDataURL None)
                     (setState (setCropData (Some (rounded selection)))
                        (log selection_toCanvas w)))).
  { unfold run. simpl fold_left.
    rewrite step_selection_change, onCrop_cases, Hsel.
    erewrite (step_settle_at (pending w) [] await_preview_canvas);
      cycle 1.
    - reflexivity.
    - simpl. rewrite app_nil_r. reflexivity.
    - destruct w; reflexivity. }
  rewrite E. split; [reflexivity|].
  intro Hne.
  set (w' := setState _ _).
  change (List.length (pending w)) with (List.length (pending w')).
  rewrite (download_success blob (toDataURL canvas None) w' eq_refl Hne),
    save_blob_calls.
  eexists. split.
  - simpl. rewrite <- !app_assoc. reflexivity.
  - apply extension_download_name.
Qed.

Lemma livePreview_uses_default_encoding_witness :
  let w := run [change_exportFormat webp]
             (mount (initial_world true (Some sample_selection) true)) in
  let w' := run [selection_change;
                 settle 0 (fulfilled_canvas sample_canvas)] w in
  let w'' := run [click_download; settle 0 fulfilled_response;
                  settle 0 (fulfilled_blob "blob"%string)] w' in
  selectionRef w = Some sample_selection /\
  livePreview (st w') = Some "data:image/png;base64,AAAA"%string /\
  exists a : Anchor,
    In (link_click 1%N a) (calls w'') /\
    extension (download a) = Some "webp"%string.
Proof.
  cbv zeta. split; [reflexivity|].
  pose proof (livePreview_uses_default_encoding
                (run [change_exportFormat webp]
                   (mount (initial_world true
                             (Some sample_selection) true)))
                sample_selection sample_canvas "blob"%string eq_refl) as H.
  cbv zeta in H. destruct H as [H1 H2]. split.
  - exact (f_equal (fun v => livePreview (st v)) H1).
  - destruct (H2 ltac:(discriminate)) as [a [Hc He]].
    exists a. split; [|exact He].
    refine (eq_ind_r (fun l => In (link_click 1%N a) l) _ Hc).
    apply in_or_app. right. vm_compute. auto 10.
Defined.

(** The cropped result is encoded with the format and quality that were
    selected when "Crop Image" was clicked.  If the user selects another
    format and quality before [$toCanvas()] is fulfilled, the image is
    still encoded with the old ones, while the download link under it is
    named after the new format. *)
Theorem crop_encodes_with_settings_at_click (w : World)
    (selection : Selection.t) (canvas : HTMLCanvasElement)
    (fmt : ExportFormat) (q : number) :
  selectionRef w = Some selection ->
  let args := Some (("image/" ++ format_name (exportFormat (st w)))%string,
                    exportQuality (st w)) in
  let k := List.length (pending w) in
  let w' := run [click_cropImage; change_exportFormat fmt;
                 change_exportQuality q;
                 settle k (fulfilled_canvas canvas)] w in
  croppedImage (st w') = Some (toDataURL canvas args) /\
  exportFormat (st w') = fmt /\
  exportQuality (st w') = q /\
  (toDataURL canvas args <> ""%string ->
   result_link (st w') =
     Some (toDataURL canvas args, ("cropped." ++ format_name fmt)%string)).
Proof.
  intro Hsel. cbv zeta. unfold run. simpl fold_left.
  rewrite step_cropImage. unfold handleGetResult. rewrite Hsel.
  rewrite !(step_not_flip (change_exportFormat _)) by reflexivity.
  rewrite !(step_not_flip (change_exportQuality _)) by reflexivity.
  erewrite (step_settle_at (pending w) []
              (await_result_canvas _ _)); cycle 1.
  - reflexivity.
  - simpl. rewrite app_nil_r. reflexivity.
  - repeat (split; [reflexivity|]).
    intro Hne. now apply result_link_truthy.
Qed.

Lemma crop_encodes_with_settings_at_click_witness :
  let w := mount (initial_world true (Some sample_selection) true) in
  selectionRef w = Some sample_selection /\
  result_link
    (st (run [click_cropImage; change_exportFormat jpeg;
              change_exportQuality 0.5%float;
              settle 0 (fulfilled_canvas sample_canvas)] w))
  = Some ("data:image/png;base64,AAAA"%string, "cropped.jpeg"%string).
Proof.
  cbv zeta. split; [reflexivity|].
  exact (proj2 (proj2 (proj2
           (crop_encodes_with_settings_at_click
              (mount (initial_world true (Some sample_selection) true))
              sample_selection sample_canvas jpeg 0.5%float eq_refl)))
           ltac:(discriminate)).
Defined.

(** ** Results that arrive out of order *)

Lemma length_snoc {A : Type} (l : list A) (a : A) :
  List.length (l ++ [a]) = S (List.length l).
Proof. rewrite length_app. simpl. lia. Qed.

(** No handler remembers which request is the latest.  If the selection
    changes twice and the second [$toCanvas()] is fulfilled before the
    first, the live preview ends up showing the canvas of the first
    selection, while [cropData] holds the rectangle of the second. *)
Theorem late_canvas_overwrites_preview (w : World)
    (first second : Selection.t) (c1 c2 : HTMLCanvasElement) :
  let k := List.length (pending w) in
  let w' := run [env_selectionRef (Some first); selection_change;
                 env_selectionRef (Some second); selection_change;
                 settle (S k) (fulfilled_canvas c2);
                 settle k (fulfilled_canvas c1)] w in
  livePreview (st w') = Some (toDataURL c1 None) /\
  cropData (st w') = Some (rounded second) /\
  pending w' = pending w.
Proof.
  cbv zeta. unfold run. simpl fold_left.
  rewrite !(step_not_flip (env_selectionRef _)) by reflexivity.
  rewrite !step_selection_change, !onCrop_cases. simpl.
  rewrite <- (length_snoc (pending w) await_preview_canvas).
  erewrite (step_settle_at (pending w ++ [await_preview_canvas]) []
              await_preview_canvas); cycle 1.
  - reflexivity.
  - reflexivity.
  - erewrite (step_settle_at (pending w) [] await_preview_canvas); cycle 1.
    + simpl. now rewrite app_nil_r.
    + reflexivity.
    + simpl. rewrite app_nil_r. repeat split.
Qed.

(** The same holds for uploads: when two files are chosen one after the
    other and the second is loaded before the first, the picture shown
    at the end is the first file, not the one chosen last. *)
Theorem late_load_overwrites_picture (w : World) (f1 f2 : File)
    (rest1 rest2 : list File) (data1 data2 : string) :
  let k := List.length (pending w) in
  let w' := run [change_file (Some (f1 :: rest1));
                 change_file (Some (f2 :: rest2));
                 settle (S k) (load_event (Some (result_string data2)));
                 settle k (load_event (Some (result_string data1)))] w in
  imgSrc (st w') = data1 /\
  pending w' = pending w /\
  calls w' = calls w ++ [reader_readAsDataURL f1; reader_readAsDataURL f2].
Proof.
  cbv zeta. unfold run. simpl fold_left.
  rewrite !step_change_file. unfold handleFileUpload.
  rewrite <- (length_snoc (pending w) (await_file_load f1)).
  erewrite (step_settle_at (pending w ++ [await_file_load f1]) []
              (await_file_load f2)); cycle 1.
  - reflexivity.
  - reflexivity.
  - erewrite (step_settle_at (pending w) [] (await_file_load f1)); cycle 1.
    + simpl. now rewrite app_nil_r.
    + reflexivity.
    + simpl. rewrite app_nil_r, <- app_assoc. repeat split.
Qed.

(** ** Cells that are never cleared *)





(** ** Download names *)

Lemma string_length_append (a b : string) :
  String.length (a ++ b) = String.length a + String.length b.
Proof. induction a as [|c a IH]; simpl; [reflexivity | now rewrite IH]. Qed.

Lemma string_append_cancel_r (a b t : string) :
  (a ++ t = b ++ t)%string -> a = b.
Proof.
  revert b. induction a as [|c a IH]; intros [|d b] H.
  - reflexivity.
  - apply (f_equal String.length) in H. simpl in H.
    rewrite string_length_append in H. lia.
  - apply (f_equal String.length) in H. simpl in H.
    rewrite string_length_append in H. lia.
  - simpl in H. injection H as -> H. f_equal. now apply IH.
Qed.

Lemma string_of_N_injective (m n : N) :
  JS.string_of_N m = JS.string_of_N n -> m = n.
Proof.
  unfold JS.string_of_N. intro H.
  apply (f_equal NilEmpty.uint_of_string) in H.
  rewrite !NilEmpty.usu in H. injection H as H.
  apply (f_equal N.of_uint) in H.
  now rewrite !DecimalN.Unsigned.of_to in H.
Qed.

(** The name [downloadImage] gives the file determines both the clock
    reading and the format it was built from: two downloads get the same
    name only if they ran in the same millisecond with the same format
    selected. *)
Theorem download_name_injective (now1 now2 : N) (fmt1 fmt2 : ExportFormat) :
  download_name now1 fmt1 = download_name now2 fmt2 ->
  now1 = now2 /\ fmt1 = fmt2.
Proof.
  intro H.
  assert (F : fmt1 = fmt2).
  { apply (f_equal extension) in H.
    rewrite !extension_download_name in H.
    destruct fmt1, fmt2; try reflexivity; discriminate H. }
  subst fmt2. split; [|reflexivity].
  unfold download_name in H. simpl in H.
  injection H as H.
  apply string_append_cancel_r in H.
  now apply string_of_N_injective.
Qed.

Lemma download_name_injective_witness :
  download_name 1700000000000 jpeg = "cropped-image-1700000000000.jpeg"%string /\
  (1700000000000%N = 1700000000000%N /\ jpeg = jpeg).
Proof.
  split; [reflexivity|].
  apply (download_name_injective 1700000000000 1700000000000 jpeg jpeg).
  reflexivity.
Defined.
